(** * Dining philosophers: the fork-arbitration monitor of [main.py]

    A shallow embedding of class [Monitor] ([test], [pickup_forks],
    [putdown_forks], [stop]), of the restart branch of [main] and of the
    [philosopher] loop, followed by the properties of the monitor.

    Modelling choices.
    - [self.state] and [self.forks_in_use] are Python lists of length
      [NUM_PHILOSOPHERS]; they are lists here, read with [!!] and written with
      [<[i:=v]>].  Python raises [IndexError] on an index outside the list,
      the list update of the model does nothing there: every statement below
      is about indices [i < NUM_PHILOSOPHERS] and lists of that length
      ([wf]), where the two agree.
    - [threading.Condition]: the body of a [with self.condition:] block runs
      with the lock held, so it is one atomic transition.  [pickup_forks]
      gives the lock up inside [condition.wait]; it is cut there into the
      entry transition [pickup_forks] and the re-check transition
      [pickup_wait_loop] that a woken thread runs.  The field [condition]
      counts the [notify_all] broadcasts.
    - [time.time()] is an input of the transition that reads it; instants are
      rationals (seconds).
    - [log_event] prefixes the message with the wall-clock time of day; the
      model keeps the message and leaves the prefix out. *)

From Stdlib Require Import QArith Lqa.
From stdpp Require Import base decidable numbers list strings pretty.

Local Open Scope nat_scope.

(** ** Constants and data *)

Definition NUM_PHILOSOPHERS : nat := 5.
Definition TIMEOUT : Q := 5.
Definition LOG_MAXLEN : nat := 20.

Inductive PState : Type := THINKING | HUNGRY | EATING | DEADLOCK.

#[global] Instance PState_eq_dec : EqDecision PState.
Proof. solve_decision. Defined.

Record Monitor : Type := mkMonitor {
  state : list PState;
  forks_in_use : list (option nat);
  condition : nat;
  log : list string;
  running : bool
}.

(** [Monitor.__init__] *)
Definition Monitor_init : Monitor :=
  mkMonitor (replicate NUM_PHILOSOPHERS THINKING)
            (replicate NUM_PHILOSOPHERS None)
            0 [] true.

(** Field assignments. *)
Definition set_state (i : nat) (v : PState) (m : Monitor) : Monitor :=
  mkMonitor (<[i:=v]> (state m)) (forks_in_use m) (condition m) (log m) (running m).

Definition set_fork (k : nat) (v : option nat) (m : Monitor) : Monitor :=
  mkMonitor (state m) (<[k:=v]> (forks_in_use m)) (condition m) (log m) (running m).

Definition set_running (b : bool) (m : Monitor) : Monitor :=
  mkMonitor (state m) (forks_in_use m) (condition m) (log m) b.

(** [self.condition.notify_all()] *)
Definition notify_all (m : Monitor) : Monitor :=
  mkMonitor (state m) (forks_in_use m) (S (condition m)) (log m) (running m).

(** [deque(maxlen=20).append]: the oldest entries fall out at the left. *)
Definition deque_append (x : string) (d : list string) : list string :=
  let d' := d ++ [x] in drop (length d' - LOG_MAXLEN) d'.

(** [Monitor.log_event] *)
Definition log_event (message : string) (m : Monitor) : Monitor :=
  mkMonitor (state m) (forks_in_use m) (condition m)
            (deque_append message (log m)) (running m).

(** Index arithmetic.  [(i + N - 1) % N] stays in the naturals;
    [(i - 1 + N) % N] passes through [i - 1], which is [-1] for [i = 0], so it
    is computed on integers, as Python does. *)
Definition left_of (i : nat) : nat :=
  (i + NUM_PHILOSOPHERS - 1) mod NUM_PHILOSOPHERS.

Definition prev_of (i : nat) : nat :=
  Z.to_nat ((Z.of_nat i - 1 + Z.of_nat NUM_PHILOSOPHERS) mod Z.of_nat NUM_PHILOSOPHERS)%Z.

Definition next_of (i : nat) : nat :=
  (i + 1) mod NUM_PHILOSOPHERS.

(** The log messages (f-strings of the source). *)
Definition P_ (i : nat) : string := "P" +:+ pretty i.
Definition F_ (k : nat) : string := "F" +:+ pretty k.

Definition msg_eating (i left right : nat) : string :=
  P_ i +:+ " eating (" +:+ F_ left +:+ ", " +:+ F_ right +:+ ")".
Definition msg_hungry (i : nat) : string := P_ i +:+ " hungry".
Definition msg_timed_out (i : nat) : string := P_ i +:+ " timed out!".
Definition msg_stopped (i : nat) : string := P_ i +:+ " stopped eating".
Definition msg_thinking (i : nat) : string := P_ i +:+ " thinking".

(** ** The monitor *)

(** The condition of the [if] in [Monitor.test]. *)
Definition can_eat (i : nat) (m : Monitor) : bool :=
  bool_decide (state m !! i = Some HUNGRY)
  && bool_decide (forks_in_use m !! left_of i = Some None)
  && bool_decide (forks_in_use m !! i = Some None).

(** The body of that [if]. *)
Definition grant (i : nat) (m : Monitor) : Monitor :=
  let left := left_of i in
  let right := i in
  log_event (msg_eating i left right)
    (notify_all
       (set_fork right (Some i)
          (set_fork left (Some i)
             (set_state i EATING m)))).

(** [Monitor.test] *)
Definition test (i : nat) (m : Monitor) : Monitor :=
  if can_eat i m then grant i m else m.

(** What a transition of [pickup_forks] ends in: the call returns, or the
    thread is suspended in [self.condition.wait(remaining)]. *)
Inductive Outcome : Type :=
  | Return (b : bool)
  | Wait (remaining : Q).

(** The [while] loop of [pickup_forks], from its condition up to the next
    [wait] or [return]; [now] is the value of [time.time()] read in the body.
    A thread woken from [wait] runs it again with the same [start_time]. *)
Definition pickup_wait_loop (i : nat) (start_time now : Q) (m : Monitor)
  : Monitor * Outcome :=
  if negb (bool_decide (state m !! i = Some EATING)) && running m then
    let remaining := (TIMEOUT - (now - start_time))%Q in
    if Qle_bool remaining 0 then
      (log_event (msg_timed_out i) (set_state i DEADLOCK m), Return false)
    else (m, Wait remaining)
  else (m, Return (running m && bool_decide (state m !! i = Some EATING))).

(** [Monitor.pickup_forks], up to its first [wait] or its [return].
    [start_time] and [now] are the two clock readings it makes. *)
Definition pickup_forks (i : nat) (start_time now : Q) (m : Monitor)
  : Monitor * Outcome :=
  if negb (running m) then (m, Return false)
  else
    let m1 := set_state i HUNGRY m in
    let m2 := log_event (msg_hungry i) m1 in
    let m3 := test i m2 in
    pickup_wait_loop i start_time now m3.

(** [Monitor.putdown_forks], before its two calls of [test]. *)
Definition put_back (i : nat) (m : Monitor) : Monitor :=
  let left := left_of i in
  let right := i in
  log_event (msg_stopped i)
    (set_fork right None
       (set_fork left None
          (set_state i THINKING m))).

(** [Monitor.putdown_forks] *)
Definition putdown_forks (i : nat) (m : Monitor) : Monitor :=
  test (next_of i) (test (prev_of i) (put_back i m)).

(** [Monitor.stop] *)
Definition stop (m : Monitor) : Monitor :=
  notify_all (set_running false m).

(** The restart branch of [main]: [monitor.running = True], then the loop
    over [range(NUM_PHILOSOPHERS)] that clears [DEADLOCK]. *)
Definition clear_deadlock (m : Monitor) (i : nat) : Monitor :=
  if bool_decide (state m !! i = Some DEADLOCK) then set_state i THINKING m else m.

Definition restart (m : Monitor) : Monitor :=
  foldl clear_deadlock (set_running true m) (seq 0 NUM_PHILOSOPHERS).

(** A whole call of [pickup_forks] with no other thread touching the
    monitor: the entry transition, then one re-check per wake-up of the
    suspended thread; [wakeups] are the clock readings at the wake-ups.
    [None]: the call is still suspended when the readings are used up. *)
Fixpoint pickup_rechecks (i : nat) (start_time : Q) (wakeups : list Q)
    (r : Monitor * Outcome) : Monitor * option bool :=
  match r with
  | (m, Return b) => (m, Some b)
  | (m, Wait _) =>
      match wakeups with
      | [] => (m, None)
      | now :: rest =>
          pickup_rechecks i start_time rest (pickup_wait_loop i start_time now m)
      end
  end.

Definition pickup_forks_alone (i : nat) (start_time now : Q) (wakeups : list Q)
    (m : Monitor) : Monitor * option bool :=
  pickup_rechecks i start_time wakeups (pickup_forks i start_time now m).

(** ** The philosopher thread

    One thread of [philosopher(id, monitor)], as a machine over the points at
    which the thread can be between two transitions. *)
Inductive PC : Type :=
  | AtLoopHead                (* about to evaluate [while monitor.running] *)
  | Thinking                  (* in the first [time.sleep] *)
  | Requesting                (* past [if not monitor.running], about to call [pickup_forks] *)
  | Blocked (start_time : Q)  (* suspended in [condition.wait] in [pickup_forks] *)
  | Dining                    (* in the second [time.sleep] *)
  | Exited.                   (* the loop is left, the thread is over *)

(** Where the thread goes with the result of [pickup_forks]:
    [if monitor.pickup_forks(id): ...] has no [else], so on [False] control
    falls off the end of the loop body, back to the loop head. *)
Definition after_pickup (start_time : Q) (r : Monitor * Outcome) : PC * Monitor :=
  match r with
  | (m, Return true) => (Dining, m)
  | (m, Return false) => (AtLoopHead, m)
  | (m, Wait _) => (Blocked start_time, m)
  end.

(** One transition of the thread.  [start_time] and [now] are the clock
    readings of the transition (used only where [pickup_forks] reads the
    clock). *)
Definition philosopher_step (id : nat) (start_time now : Q) (pc : PC) (m : Monitor)
  : PC * Monitor :=
  match pc with
  | AtLoopHead =>
      if running m then (Thinking, log_event (msg_thinking id) m)
      else (Exited, m)
  | Thinking =>
      if negb (running m) then (Exited, m) else (Requesting, m)
  | Requesting => after_pickup start_time (pickup_forks id start_time now m)
  | Blocked st => after_pickup st (pickup_wait_loop id st now m)
  | Dining => (AtLoopHead, putdown_forks id m)
  | Exited => (Exited, m)
  end.

(** The transition is a call or a re-check of [pickup_forks] that returns
    [False]. *)
Definition pickup_returns_false (id : nat) (start_time now : Q) (pc : PC)
    (m : Monitor) : bool :=
  match pc with
  | Requesting =>
      match snd (pickup_forks id start_time now m) with
      | Return false => true | _ => false end
  | Blocked st =>
      match snd (pickup_wait_loop id st now m) with
      | Return false => true | _ => false end
  | _ => false
  end.

(** ** The monitor under arbitrary clients

    The operations that threads issue on one monitor, in any order.  A call
    of [pickup_forks] that suspends is recorded in [blocked] with its actor
    and its [start_time]; [Resume k now] wakes the [k]-th suspended call,
    which re-checks.  [Release i] is enabled only while actor [i] is
    [EATING].  [Restart] is the restart branch of [main] taken as one
    transition. *)
Inductive Op : Type :=
  | Request (i : nat) (start_time now : Q)
  | Resume (k : nat) (now : Q)
  | Release (i : nat)
  | Shutdown
  | Restart.

Record System : Type := mkSystem {
  mon : Monitor;
  blocked : list (nat * Q)
}.

Definition System_init : System := mkSystem Monitor_init [].

Definition do_op (op : Op) (s : System) : option System :=
  match op with
  | Request i start_time now =>
      if decide (i < NUM_PHILOSOPHERS) then
        match pickup_forks i start_time now (mon s) with
        | (m', Wait _) => Some (mkSystem m' (blocked s ++ [(i, start_time)]))
        | (m', Return _) => Some (mkSystem m' (blocked s))
        end
      else None
  | Resume k now =>
      match blocked s !! k with
      | Some (i, start_time) =>
          match pickup_wait_loop i start_time now (mon s) with
          | (m', Wait _) => Some (mkSystem m' (blocked s))
          | (m', Return _) => Some (mkSystem m' (delete k (blocked s)))
          end
      | None => None
      end
  | Release i =>
      if decide (i < NUM_PHILOSOPHERS) then
        if bool_decide (state (mon s) !! i = Some EATING)
        then Some (mkSystem (putdown_forks i (mon s)) (blocked s))
        else None
      else None
  | Shutdown => Some (mkSystem (stop (mon s)) (blocked s))
  | Restart => Some (mkSystem (restart (mon s)) (blocked s))
  end.

(** Running a sequence of operations; [None] when one of them is not
    enabled. *)
Fixpoint run (ops : list Op) (s : System) : option System :=
  match ops with
  | [] => Some s
  | op :: rest =>
      match do_op op s with
      | Some s' => run rest s'
      | None => None
      end
  end.

Definition reachable (s : System) : Prop :=
  ∃ ops, run ops System_init = Some s.

(** A client discipline: [pickup_forks(i)] is not called while actor [i]
    is [EATING]. *)
Definition polite (op : Op) (s : System) : bool :=
  match op with
  | Request i _ _ => negb (bool_decide (state (mon s) !! i = Some EATING))
  | _ => true
  end.

Fixpoint run_polite (ops : list Op) (s : System) : option System :=
  match ops with
  | [] => Some s
  | op :: rest =>
      if polite op s then
        match do_op op s with
        | Some s' => run_polite rest s'
        | None => None
        end
      else None
  end.

Definition reachable_polite (s : System) : Prop :=
  ∃ ops, run_polite ops System_init = Some s.

(** ** State predicates *)

Definition wf (m : Monitor) : Prop :=
  length (state m) = NUM_PHILOSOPHERS ∧
  length (forks_in_use m) = NUM_PHILOSOPHERS.

Definition is_eating (m : Monitor) (i : nat) : Prop :=
  state m !! i = Some EATING.

Definition holds (m : Monitor) (i k : nat) : Prop :=
  forks_in_use m !! k = Some (Some i).

Definition is_free (m : Monitor) (k : nat) : Prop :=
  forks_in_use m !! k = Some None.

Definition holds_both (m : Monitor) (i : nat) : Prop :=
  holds m i (left_of i) ∧ holds m i i.

(** ** Invariants, the claims as the specification states them, sample states *)

(** An actor that eats has both its forks. *)
Definition eaters_hold (m : Monitor) : Prop :=
  ∀ i, i < NUM_PHILOSOPHERS → is_eating m i → holds_both m i.

(** A fork is recorded only for one of the two actors next to it. *)
Definition owners_adjacent (m : Monitor) : Prop :=
  ∀ k j, holds m j k → j < NUM_PHILOSOPHERS ∧ (k = j ∨ k = left_of j).

(** An actor recorded on a fork eats. *)
Definition holders_eat (m : Monitor) : Prop :=
  ∀ k j, holds m j k → is_eating m j.

(** The invariant under any clients that release only while eating. *)
Definition Inv (m : Monitor) : Prop :=
  wf m ∧ eaters_hold m ∧ owners_adjacent m.

(** The invariant under clients that, moreover, do not request while
    eating. *)
Definition InvP (m : Monitor) : Prop :=
  Inv m ∧ holders_eat m.

(** Actors 0 and 2 eat, actor 1 waits between them. *)
Definition ops_two_eat : list Op :=
  [Request 0 0 0; Request 2 0 0; Request 1 1 1].

Definition sys_two_eat : System :=
  mkSystem
    (mkMonitor [EATING; HUNGRY; EATING; THINKING; THINKING]
               [Some 0; Some 2; Some 2; None; Some 0]
               2
               ["P0 hungry"; "P0 eating (F4, F0)"; "P2 hungry";
                "P2 eating (F1, F2)"; "P1 hungry"]
               true)
    [(1, 1%Q)].

(** The ownership claim as the specification has it, on one monitor state. *)
Definition ownership_consistent (m : Monitor) : Prop :=
  (∀ k a b, holds m a k → holds m b k → a = b) ∧
  (∀ i, i < NUM_PHILOSOPHERS → is_eating m i ↔ holds_both m i).

(** Actor 0 is granted its forks and, still eating, requests again. *)
Definition ops_request_twice : list Op := [Request 0 0 0; Request 0 1 1].

Definition sys_request_twice : System :=
  mkSystem
    (mkMonitor [HUNGRY; THINKING; THINKING; THINKING; THINKING]
               [Some 0; None; None; None; Some 0]
               1
               ["P0 hungry"; "P0 eating (F4, F0)"; "P0 hungry"]
               true)
    [(0, 1%Q)].

(** Consecutive transitions of one thread, one pair of clock readings per
    transition. *)
Fixpoint philosopher_steps (id : nat) (clocks : list (Q * Q)) (pc : PC)
    (m : Monitor) : PC * Monitor :=
  match clocks with
  | [] => (pc, m)
  | (start_time, now) :: rest =>
      let '(pc', m') := philosopher_step id start_time now pc m in
      philosopher_steps id rest pc' m'
  end.

(** The claim of the specification on the loop: a [False] from
    [pickup_forks] ends the loop. *)
Definition loop_exits_on_false : Prop :=
  ∀ id st now pc m,
    id < NUM_PHILOSOPHERS → wf m →
    pickup_returns_false id st now pc m = true →
    (philosopher_step id st now pc m).1 = Exited.

(** Actor 1 eats; actor 0 has requested at time 1 and is suspended. *)
Definition mon_waiting : Monitor :=
  mkMonitor [HUNGRY; EATING; THINKING; THINKING; THINKING]
            [Some 1; Some 1; None; None; None]
            1
            ["P1 hungry"; "P1 eating (F0, F1)"; "P0 hungry"]
            true.

Definition mon_timed_out : Monitor :=
  mkMonitor [DEADLOCK; EATING; THINKING; THINKING; THINKING]
            [Some 1; Some 1; None; None; None]
            1
            ["P1 hungry"; "P1 eating (F0, F1)"; "P0 hungry"; "P0 timed out!"]
            true.

Definition mon_hungry_again : Monitor :=
  mkMonitor [HUNGRY; EATING; THINKING; THINKING; THINKING]
            [Some 1; Some 1; None; None; None]
            1
            ["P1 hungry"; "P1 eating (F0, F1)"; "P0 hungry"; "P0 timed out!";
             "P0 thinking"; "P0 hungry"]
            true.

(** The claim of the specification on one re-check of a request. *)
Definition deadline_gives_deadlock (i : nat) (st now : Q) (m : Monitor) : Prop :=
  (TIMEOUT <= now - st)%Q → ¬ is_eating m i →
  let r := pickup_wait_loop i st now m in
  state r.1 !! i = Some DEADLOCK ∧
  last (log r.1) = Some (msg_timed_out i) ∧
  r.2 = Return false.

(** [mon_waiting] after [stop]. *)
Definition mon_stopped : Monitor :=
  mkMonitor [HUNGRY; EATING; THINKING; THINKING; THINKING]
            [Some 1; Some 1; None; None; None]
            2
            ["P1 hungry"; "P1 eating (F0, F1)"; "P0 hungry"]
            false.

(** The part of the specification's claim that fails: every release
    notifies the waiters. *)
Definition release_notifies : Prop :=
  ∀ i m, wf m → i < NUM_PHILOSOPHERS → is_eating m i →
         condition m < condition (putdown_forks i m).

(** Actor 0 eats, nobody else has asked. *)
Definition mon_zero_eats : Monitor :=
  mkMonitor [EATING; THINKING; THINKING; THINKING; THINKING]
            [Some 0; None; None; None; Some 0]
            1
            ["P0 hungry"; "P0 eating (F4, F0)"]
            true.

(** Actor 0 eats, actor 1 has asked and waits for fork 0. *)
Definition mon_one_waits : Monitor :=
  mkMonitor [EATING; HUNGRY; THINKING; THINKING; THINKING]
            [Some 0; None; None; None; Some 0]
            1
            ["P0 hungry"; "P0 eating (F4, F0)"; "P1 hungry"]
            true.

(** What restart does to one actor's state. *)
Definition cleared (s : PState) : PState :=
  match s with DEADLOCK => THINKING | _ => s end.

(** Actor 0 has timed out, then the monitor was stopped. *)
Definition mon_deadlocked : Monitor :=
  mkMonitor [DEADLOCK; EATING; THINKING; THINKING; THINKING]
            [Some 1; Some 1; None; None; None]
            2
            ["P1 hungry"; "P1 eating (F0, F1)"; "P0 hungry"; "P0 timed out!"]
            false.

(** ** The program: the threads that [main] starts, and its button

    [main] creates the monitor and starts one thread per philosopher; the
    event loop then reacts to clicks on the button: [monitor.stop()] when the
    monitor runs, the restart branch followed by five new threads when it
    does not.  [threads] holds every thread started so far with the point it
    is at (a running thread of Python does not go away when [main] forgets
    its handle); [philosophers] is the list of handles that [main] keeps, as
    indices into [threads]. *)
Record Program : Type := mkProgram {
  monitor : Monitor;
  threads : list (nat * PC);
  philosophers : list nat
}.

(** [t = threading.Thread(target=philosopher, args=(i, monitor))],
    [t.start()], [philosophers.append(t)] *)
Definition spawn (p : Program) (i : nat) : Program :=
  mkProgram (monitor p)
            (threads p ++ [(i, AtLoopHead)])
            (philosophers p ++ [length (threads p)]).

(** [for i in range(NUM_PHILOSOPHERS): ...] around it *)
Definition spawn_all (p : Program) : Program :=
  foldl spawn p (seq 0 NUM_PHILOSOPHERS).

(** [main], up to its event loop. *)
Definition main_init : Program :=
  spawn_all (mkProgram Monitor_init [] []).

(** The handler of a click on the button. *)
Definition click (p : Program) : Program :=
  if running (monitor p) then
    mkProgram (stop (monitor p)) (threads p) (philosophers p)
  else
    spawn_all (mkProgram (restart (monitor p)) (threads p) []).

(** The [except KeyboardInterrupt] handler, before its [join]s. *)
Definition quit (p : Program) : Program :=
  mkProgram (stop (monitor p)) (threads p) (philosophers p).

(** What happens in the program: thread [k] makes a transition (with the
    clock readings of that transition), or the button is clicked. *)
Inductive Event : Type :=
  | Tick (k : nat) (start_time now : Q)
  | Click.

Definition program_step (ev : Event) (p : Program) : Program :=
  match ev with
  | Tick k start_time now =>
      match threads p !! k with
      | Some (id, pc) =>
          let '(pc', m') := philosopher_step id start_time now pc (monitor p) in
          mkProgram m' (<[k:=(id, pc')]> (threads p)) (philosophers p)
      | None => p
      end
  | Click => click p
  end.

Definition run_program (evs : list Event) (p : Program) : Program :=
  foldl (λ p ev, program_step ev p) p evs.

Definition is_exited (pc : PC) : bool :=
  match pc with Exited => true | _ => false end.

Definition all_exited (p : Program) : bool :=
  forallb (λ t, is_exited t.2) (threads p).

(** [t.join()] for every handle in [philosophers] returns. *)
Definition joined (p : Program) : Prop :=
  ∀ k, k ∈ philosophers p → ∃ id, threads p !! k = Some (id, Exited).

(** A click is quiet when it stops the monitor, or restarts it after every
    thread has left its loop. *)
Definition quiet (ev : Event) (p : Program) : bool :=
  match ev with
  | Click => running (monitor p) || all_exited p
  | Tick _ _ _ => true
  end.

Fixpoint run_quiet (evs : list Event) (p : Program) : option Program :=
  match evs with
  | [] => Some p
  | ev :: rest =>
      if quiet ev p then run_quiet rest (program_step ev p) else None
  end.

(** Thread [k] makes two transitions. *)
Definition tick_twice (start_time now : Q) (p : Program) (k : nat) : Program :=
  program_step (Tick k start_time now) (program_step (Tick k start_time now) p).

(** Every thread makes two transitions, in the order of [threads]. *)
Definition settle (start_time now : Q) (p : Program) : Program :=
  foldl (tick_twice start_time now) p (seq 0 (length (threads p))).

(** The invariant of the program under quiet clicks: the monitor invariant,
    a thread between its grant and its release has an eating actor, and an
    actor has at most one thread that is still in its loop. *)
Definition PInv (p : Program) : Prop :=
  Inv (monitor p) ∧
  (∀ k id pc, threads p !! k = Some (id, pc) → id < NUM_PHILOSOPHERS) ∧
  (∀ k id, threads p !! k = Some (id, Dining) → is_eating (monitor p) id) ∧
  (∀ k k' id pc pc',
     threads p !! k = Some (id, pc) → threads p !! k' = Some (id, pc') →
     pc ≠ Exited → pc' ≠ Exited → k = k').

(** A quick stop and start while thread 0 sleeps: actor 0 then has two
    threads, both are granted by one release, and the second of their two
    releases takes fork 0 away from actor 1. *)
Definition evs_double_start : list Event :=
  [ Tick 1 0 0; Tick 1 0 0; Tick 1 0 0;      (* thread 1 thinks, asks, eats *)
    Tick 0 0 0;                              (* thread 0 thinks *)
    Click; Click;                            (* stop, start: threads 5..9 *)
    Tick 0 0 0; Tick 0 1 1;                  (* thread 0 asks, is suspended *)
    Tick 5 0 0; Tick 5 0 0; Tick 5 1 1;      (* thread 5 (actor 0) the same *)
    Tick 1 0 0;                              (* thread 1 releases: actor 0 eats *)
    Tick 0 1 2; Tick 5 1 2;                  (* both threads of actor 0 return True *)
    Tick 1 0 0; Tick 1 0 0; Tick 1 2 2;      (* thread 1 asks again, is suspended *)
    Tick 0 0 0;                              (* thread 0 releases: actor 1 eats *)
    Tick 5 0 0;                              (* thread 5 releases forks 4 and 0 *)
    Tick 0 0 0; Tick 0 0 0; Tick 0 3 3 ]%Q.  (* thread 0 asks and eats *)

Definition log_bounded (m : Monitor) : Prop :=
  length (log m) ≤ LOG_MAXLEN.

Definition count_eating (m : Monitor) : nat :=
  length (filter (λ s, s = EATING) (state m)).

(** ** What [draw_scene] shows

    The colours and texts that [draw_scene] takes from the monitor.  The
    pixel positions of forks and philosophers come from [math.cos] and
    [math.sin] and are left out; the positions of the log lines are
    integers and are kept. *)
Definition WIDTH : nat := 1200.
Definition HEIGHT : nat := 800.
Definition RADIUS : nat := 200.








(** The log panel: [list(monitor.log)[-20:]], one line every 20 pixels from
    [log_y = 20] on, at [panel_x + 10]. *)
Definition panel_x : nat := WIDTH `div` 2 + RADIUS + 80.

Definition last_20 (l : list string) : list string :=
  drop (length l - 20) l.

Definition draw_log (m : Monitor) : list (string * (nat * nat)) :=
  imap (λ k msg, (msg, (panel_x + 10, 20 + 20 * k))) (last_20 (log m)).

Definition btn_text (m : Monitor) : string :=
  if running m then "Stop" else "Start".

(** ** Index arithmetic on the ring *)

Ltac ring_index i :=
  unfold NUM_PHILOSOPHERS in *;
  do 5 (destruct i as [|i]; [try (vm_compute; (reflexivity || lia || congruence))|]);
  try lia.

Lemma left_of_lt i : i < NUM_PHILOSOPHERS → left_of i < NUM_PHILOSOPHERS.
Proof. intros _. unfold left_of. apply Nat.mod_upper_bound. discriminate. Qed.

Lemma next_of_lt i : next_of i < NUM_PHILOSOPHERS.
Proof. unfold next_of. apply Nat.mod_upper_bound. discriminate. Qed.

Lemma prev_of_left_of i : i < NUM_PHILOSOPHERS → prev_of i = left_of i.
Proof. intros H. ring_index i. Qed.

Lemma left_of_next_of i : i < NUM_PHILOSOPHERS → left_of (next_of i) = i.
Proof. intros H. ring_index i. Qed.

Lemma next_of_left_of i : i < NUM_PHILOSOPHERS → next_of (left_of i) = i.
Proof. intros H. ring_index i. Qed.

Lemma left_of_neq i : i < NUM_PHILOSOPHERS → left_of i ≠ i.
Proof. intros H. ring_index i. Qed.

Lemma next_of_neq i : i < NUM_PHILOSOPHERS → next_of i ≠ i.
Proof. intros H. ring_index i. Qed.

Lemma left_of_neq_next_of i : i < NUM_PHILOSOPHERS → left_of i ≠ next_of i.
Proof. intros H. ring_index i. Qed.

Lemma left_of_left_of_neq_next_of i :
  i < NUM_PHILOSOPHERS → left_of (left_of i) ≠ next_of i.
Proof. intros H. ring_index i. Qed.

Lemma left_of_left_of_neq i : i < NUM_PHILOSOPHERS → left_of (left_of i) ≠ i.
Proof. intros H. ring_index i. Qed.

Lemma left_of_inj i j :
  i < NUM_PHILOSOPHERS → j < NUM_PHILOSOPHERS → left_of i = left_of j → i = j.
Proof.
  intros Hi Hj H.
  rewrite <- (next_of_left_of i Hi), <- (next_of_left_of j Hj). by rewrite H.
Qed.

(** ** Reading the lists after an update *)

Section Updates.
Context (m : Monitor) (i : nat).
Hypothesis Hwf : wf m.
Hypothesis Hi : i < NUM_PHILOSOPHERS.

Lemma state_set_state v j :
  state (set_state i v m) !! j = if decide (j = i) then Some v else state m !! j.
Proof.
  destruct Hwf as [Hs _]. simpl. rewrite list_lookup_insert.
  repeat case_decide; intuition (congruence || lia).
Qed.

Lemma forks_set_pair v k :
  forks_in_use (set_fork i v (set_fork (left_of i) v m)) !! k =
  if decide (k = i ∨ k = left_of i) then Some v else forks_in_use m !! k.
Proof.
  destruct Hwf as [_ Hf]. pose proof (left_of_lt i Hi) as Hl. simpl.
  rewrite !list_lookup_insert, length_insert.
  repeat case_decide; intuition (congruence || lia).
Qed.

Lemma state_grant j :
  state (grant i m) !! j = if decide (j = i) then Some EATING else state m !! j.
Proof. apply state_set_state. Qed.

Lemma forks_grant k :
  forks_in_use (grant i m) !! k =
  if decide (k = i ∨ k = left_of i) then Some (Some i) else forks_in_use m !! k.
Proof. apply (forks_set_pair (Some i)). Qed.

Lemma state_put_back j :
  state (put_back i m) !! j = if decide (j = i) then Some THINKING else state m !! j.
Proof. apply state_set_state. Qed.

Lemma forks_put_back k :
  forks_in_use (put_back i m) !! k =
  if decide (k = i ∨ k = left_of i) then Some None else forks_in_use m !! k.
Proof. apply (forks_set_pair None). Qed.
End Updates.

Lemma wf_set_state i v m : wf m → wf (set_state i v m).
Proof. intros [Hs Hf]. split; simpl; [by rewrite length_insert | done]. Qed.

Lemma wf_grant i m : wf m → wf (grant i m).
Proof. intros [Hs Hf]. split; simpl; by rewrite ?length_insert. Qed.

Lemma wf_put_back i m : wf m → wf (put_back i m).
Proof. intros [Hs Hf]. split; simpl; by rewrite ?length_insert. Qed.

Lemma wf_test i m : wf m → wf (test i m).
Proof. intros H. unfold test. destruct (can_eat i m); [by apply wf_grant | done]. Qed.

Lemma wf_init : wf Monitor_init.
Proof. split; reflexivity. Qed.

Lemma can_eat_true i m :
  can_eat i m = true ↔
  state m !! i = Some HUNGRY ∧ is_free m (left_of i) ∧ is_free m i.
Proof.
  unfold can_eat, is_free.
  rewrite !andb_true_iff, !bool_decide_eq_true. tauto.
Qed.

(** ** The invariant of the monitor *)

Lemma Inv_init : Inv Monitor_init.
Proof.
  split; [apply wf_init|]. split.
  - intros i Hi He.
    apply (lookup_replicate_1 NUM_PHILOSOPHERS THINKING) in He as [? _].
    discriminate.
  - intros k j H.
    apply (lookup_replicate_1 NUM_PHILOSOPHERS None) in H as [? _].
    discriminate.
Qed.

Lemma InvP_init : InvP Monitor_init.
Proof.
  split; [apply Inv_init|].
  intros k j H.
  apply (lookup_replicate_1 NUM_PHILOSOPHERS None) in H as [? _].
  discriminate.
Qed.

(** Transitions that leave both lists alone. *)
Lemma Inv_frame m m' :
  state m' = state m → forks_in_use m' = forks_in_use m → Inv m → Inv m'.
Proof.
  intros Hs Hf (Hwf & He & Ho).
  unfold Inv, wf, eaters_hold, owners_adjacent, holds_both, holds, is_eating in *.
  rewrite Hs, Hf. auto.
Qed.

Lemma InvP_frame m m' :
  state m' = state m → forks_in_use m' = forks_in_use m → InvP m → InvP m'.
Proof.
  intros Hs Hf [HI Hh]. split; [by apply (Inv_frame m)|].
  unfold holders_eat, holds, is_eating in *. rewrite Hs, Hf. auto.
Qed.

(** Writing a state other than [EATING]. *)
Lemma is_eating_set_state i v m j :
  v ≠ EATING → is_eating (set_state i v m) j → is_eating m j.
Proof.
  unfold is_eating. simpl. intros Hv H.
  apply list_lookup_insert_Some in H as [(_ & ? & _)|[_ H]]; congruence.
Qed.

Lemma Inv_set_state i v m : v ≠ EATING → Inv m → Inv (set_state i v m).
Proof.
  intros Hv (Hwf & He & Ho). split; [by apply wf_set_state|]. split.
  - intros j Hj Hej. apply (is_eating_set_state _ _ _ _ Hv) in Hej.
    apply (He j Hj Hej).
  - exact Ho.
Qed.

Lemma InvP_set_state i v m :
  v ≠ EATING → ¬ is_eating m i → InvP m → InvP (set_state i v m).
Proof.
  intros Hv Hni [HI Hh]. split; [by apply Inv_set_state|].
  intros k j H. specialize (Hh k j H).
  unfold is_eating in *. simpl.
  rewrite list_lookup_insert_ne; [done|]. intros ->. contradiction.
Qed.

(** The grant of [test]. *)
Lemma Inv_grant i m :
  i < NUM_PHILOSOPHERS → can_eat i m = true → Inv m → Inv (grant i m).
Proof.
  intros Hi Hc (Hwf & He & Ho).
  apply can_eat_true in Hc as (Hh & Hl & Hr). unfold is_free in *.
  split; [by apply wf_grant|]. split.
  - intros j Hj Hej. unfold is_eating, holds_both, holds in *.
    rewrite state_grant in Hej by done.
    rewrite !forks_grant by done.
    destruct (decide (j = i)) as [->|Hne].
    + rewrite !decide_True by auto. done.
    + destruct (He j Hj Hej) as [H1 H2]. unfold holds in H1, H2.
      rewrite !decide_False; [done| |]; intros [E|E]; congruence.
  - intros k j H. unfold holds in *. rewrite forks_grant in H by done.
    case_decide as Hk.
    + inversion H; subst j. split; [done|]. tauto.
    + by apply Ho.
Qed.

Lemma InvP_grant i m :
  i < NUM_PHILOSOPHERS → can_eat i m = true → InvP m → InvP (grant i m).
Proof.
  intros Hi Hc [HI Hh]. split; [by apply Inv_grant|].
  destruct HI as (Hwf & _ & _).
  intros k j H. unfold holds, is_eating in *.
  rewrite forks_grant in H by done. rewrite state_grant by done.
  case_decide as Hk.
  - inversion H; subst j. by rewrite decide_True.
  - specialize (Hh k j H). case_decide; [by subst|done].
Qed.

Lemma Inv_test i m : i < NUM_PHILOSOPHERS → Inv m → Inv (test i m).
Proof.
  intros Hi H. unfold test. destruct (can_eat i m) eqn:Hc; [by apply Inv_grant|done].
Qed.

Lemma InvP_test i m : i < NUM_PHILOSOPHERS → InvP m → InvP (test i m).
Proof.
  intros Hi H. unfold test. destruct (can_eat i m) eqn:Hc; [by apply InvP_grant|done].
Qed.

(** Putting the forks back, by an actor that eats. *)
Lemma Inv_put_back i m :
  i < NUM_PHILOSOPHERS → is_eating m i → Inv m → Inv (put_back i m).
Proof.
  intros Hi Hei (Hwf & He & Ho).
  destruct (He i Hi Hei) as [Hil Hir].
  split; [by apply wf_put_back|]. split.
  - intros j Hj Hej. unfold is_eating, holds_both, holds in *.
    rewrite state_put_back in Hej by done.
    rewrite !forks_put_back by done.
    destruct (decide (j = i)) as [->|Hne]; [discriminate|].
    destruct (He j Hj Hej) as [H1 H2]. unfold holds in H1, H2, Hil, Hir.
    assert (j ≠ i) as Hji by done.
    rewrite !decide_False; [done| |]; intros [E|E]; congruence.
  - intros k j H. unfold holds in *. rewrite forks_put_back in H by done.
    case_decide; [discriminate|]. by apply Ho.
Qed.

Lemma InvP_put_back i m :
  i < NUM_PHILOSOPHERS → is_eating m i → InvP m → InvP (put_back i m).
Proof.
  intros Hi Hei [HI Hh]. split; [by apply Inv_put_back|].
  destruct HI as (Hwf & He & Ho).
  intros k j H. unfold holds, is_eating in *.
  rewrite forks_put_back in H by done. rewrite state_put_back by done.
  case_decide as Hk; [discriminate|].
  specialize (Hh k j H). case_decide as Hj; [|done].
  subst j. destruct (Ho k i H) as [_ ?]. tauto.
Qed.

(** Each operation of the monitor keeps the invariant. *)
Lemma Inv_putdown_forks i m :
  i < NUM_PHILOSOPHERS → is_eating m i → Inv m → Inv (putdown_forks i m).
Proof.
  intros Hi He H. unfold putdown_forks.
  apply Inv_test; [apply next_of_lt|].
  apply Inv_test; [rewrite prev_of_left_of by done; by apply left_of_lt|].
  by apply Inv_put_back.
Qed.

Lemma InvP_putdown_forks i m :
  i < NUM_PHILOSOPHERS → is_eating m i → InvP m → InvP (putdown_forks i m).
Proof.
  intros Hi He H. unfold putdown_forks.
  apply InvP_test; [apply next_of_lt|].
  apply InvP_test; [rewrite prev_of_left_of by done; by apply left_of_lt|].
  by apply InvP_put_back.
Qed.

Lemma Inv_pickup_wait_loop i st now m :
  Inv m → Inv (pickup_wait_loop i st now m).1.
Proof.
  intros H. unfold pickup_wait_loop.
  destruct (negb _ && running m); [|done].
  destruct (Qle_bool _ 0); [|done]. simpl.
  apply (Inv_frame (set_state i DEADLOCK m)); [done..|].
  by apply Inv_set_state.
Qed.

Lemma InvP_pickup_wait_loop i st now m :
  InvP m → InvP (pickup_wait_loop i st now m).1.
Proof.
  intros H. unfold pickup_wait_loop.
  destruct (bool_decide (state m !! i = Some EATING)) eqn:He; [done|].
  apply bool_decide_eq_false in He.
  destruct (running m); [|done]. simpl.
  destruct (Qle_bool _ 0); [|done]. simpl.
  apply (InvP_frame (set_state i DEADLOCK m)); [done..|].
  by apply InvP_set_state.
Qed.

Lemma Inv_pickup_forks i st now m :
  i < NUM_PHILOSOPHERS → Inv m → Inv (pickup_forks i st now m).1.
Proof.
  intros Hi H. unfold pickup_forks. destruct (running m); [|done]. simpl.
  apply Inv_pickup_wait_loop, Inv_test; [done|].
  apply (Inv_frame (set_state i HUNGRY m)); [done..|].
  by apply Inv_set_state.
Qed.

Lemma InvP_pickup_forks i st now m :
  i < NUM_PHILOSOPHERS → ¬ is_eating m i → InvP m → InvP (pickup_forks i st now m).1.
Proof.
  intros Hi Hne H. unfold pickup_forks. destruct (running m); [|done]. simpl.
  apply InvP_pickup_wait_loop, InvP_test; [done|].
  apply (InvP_frame (set_state i HUNGRY m)); [done..|].
  by apply InvP_set_state.
Qed.

Lemma Inv_stop m : Inv m → Inv (stop m).
Proof. by apply Inv_frame. Qed.

Lemma InvP_stop m : InvP m → InvP (stop m).
Proof. by apply InvP_frame. Qed.

Lemma Inv_clear_deadlock l m : Inv m → Inv (foldl clear_deadlock m l).
Proof.
  revert m. induction l as [|i l IH]; intros m H; [done|]. simpl.
  apply IH. unfold clear_deadlock.
  destruct (bool_decide _); [by apply Inv_set_state|done].
Qed.

Lemma InvP_clear_deadlock l m : InvP m → InvP (foldl clear_deadlock m l).
Proof.
  revert m. induction l as [|i l IH]; intros m H; [done|]. simpl.
  apply IH. unfold clear_deadlock.
  destruct (bool_decide _) eqn:Hd; [|done].
  apply bool_decide_eq_true in Hd.
  apply InvP_set_state; [done| |done]. unfold is_eating. congruence.
Qed.

Lemma Inv_restart m : Inv m → Inv (restart m).
Proof. intros H. apply Inv_clear_deadlock. by apply (Inv_frame m). Qed.

Lemma InvP_restart m : InvP m → InvP (restart m).
Proof. intros H. apply InvP_clear_deadlock. by apply (InvP_frame m). Qed.

Lemma Inv_do_op op s s' : do_op op s = Some s' → Inv (mon s) → Inv (mon s').
Proof.
  intros Hop H. destruct op as [i st now|k now|i| |]; simpl in Hop.
  - case_decide as Hi; [|done].
    pose proof (Inv_pickup_forks i st now (mon s) Hi H) as H'.
    destruct (pickup_forks i st now (mon s)) as [m' [b|r]];
      by inversion Hop; subst s'.
  - destruct (blocked s !! k) as [[i st]|]; [|done].
    pose proof (Inv_pickup_wait_loop i st now (mon s) H) as H'.
    destruct (pickup_wait_loop i st now (mon s)) as [m' [b|r]];
      by inversion Hop; subst s'.
  - case_decide as Hi; [|done]. case_bool_decide as He; [|done].
    inversion Hop; subst s'. by apply Inv_putdown_forks.
  - inversion Hop; subst s'. by apply Inv_stop.
  - inversion Hop; subst s'. by apply Inv_restart.
Qed.

Lemma InvP_do_op op s s' :
  polite op s = true → do_op op s = Some s' → InvP (mon s) → InvP (mon s').
Proof.
  intros Hp Hop H. destruct op as [i st now|k now|i| |]; simpl in Hop, Hp.
  - case_decide as Hi; [|done].
    apply negb_true_iff, bool_decide_eq_false in Hp.
    pose proof (InvP_pickup_forks i st now (mon s) Hi Hp H) as H'.
    destruct (pickup_forks i st now (mon s)) as [m' [b|r]];
      by inversion Hop; subst s'.
  - destruct (blocked s !! k) as [[i st]|]; [|done].
    pose proof (InvP_pickup_wait_loop i st now (mon s) H) as H'.
    destruct (pickup_wait_loop i st now (mon s)) as [m' [b|r]];
      by inversion Hop; subst s'.
  - case_decide as Hi; [|done]. case_bool_decide as He; [|done].
    inversion Hop; subst s'. by apply InvP_putdown_forks.
  - inversion Hop; subst s'. by apply InvP_stop.
  - inversion Hop; subst s'. by apply InvP_restart.
Qed.

Lemma Inv_run ops s s' : run ops s = Some s' → Inv (mon s) → Inv (mon s').
Proof.
  revert s. induction ops as [|op ops IH]; intros s Hr H; simpl in Hr.
  - by inversion Hr; subst s'.
  - destruct (do_op op s) as [s1|] eqn:Hop; [|done].
    apply (IH s1 Hr). by apply (Inv_do_op op s).
Qed.

Lemma InvP_run ops s s' :
  run_polite ops s = Some s' → InvP (mon s) → InvP (mon s').
Proof.
  revert s. induction ops as [|op ops IH]; intros s Hr H; simpl in Hr.
  - by inversion Hr; subst s'.
  - destruct (polite op s) eqn:Hp; [|done].
    destruct (do_op op s) as [s1|] eqn:Hop; [|done].
    apply (IH s1 Hr). by apply (InvP_do_op op s).
Qed.

Lemma Inv_reachable s : reachable s → Inv (mon s).
Proof. intros [ops Hr]. apply (Inv_run ops _ _ Hr). apply Inv_init. Qed.

Lemma InvP_reachable_polite s : reachable_polite s → InvP (mon s).
Proof. intros [ops Hr]. apply (InvP_run ops _ _ Hr). apply InvP_init. Qed.

Lemma run_polite_run ops s s' : run_polite ops s = Some s' → run ops s = Some s'.
Proof.
  revert s. induction ops as [|op ops IH]; intros s Hr; simpl in *; [done|].
  destruct (polite op s); [|done].
  destruct (do_op op s) as [s1|]; [|done]. by apply IH.
Qed.

(** ** What [test] touches *)

Lemma test_state_other i m j : j ≠ i → state (test i m) !! j = state m !! j.
Proof.
  intros Hj. unfold test. destruct (can_eat i m); [|done]. simpl.
  by rewrite list_lookup_insert_ne.
Qed.

Lemma test_forks_other i m k :
  k ≠ i → k ≠ left_of i → forks_in_use (test i m) !! k = forks_in_use m !! k.
Proof.
  intros Hk Hl. unfold test. destruct (can_eat i m); [|done]. simpl.
  by rewrite !list_lookup_insert_ne.
Qed.

Lemma test_running i m : running (test i m) = running m.
Proof. unfold test. by destruct (can_eat i m). Qed.

Lemma test_grants i m :
  wf m → i < NUM_PHILOSOPHERS →
  state m !! i = Some HUNGRY → is_free m (left_of i) → is_free m i →
  test i m = grant i m ∧ is_eating (test i m) i ∧ holds_both (test i m) i.
Proof.
  intros Hwf Hi Hh Hl Hr.
  assert (can_eat i m = true) as Hc by (by apply can_eat_true).
  unfold test. rewrite Hc. split; [done|].
  unfold is_eating, holds_both, holds.
  rewrite state_grant, !forks_grant by done.
  rewrite !decide_True by auto. done.
Qed.

Lemma test_condition i m :
  condition (test i m) = condition m + (if can_eat i m then 1 else 0).
Proof. unfold test. destruct (can_eat i m); simpl; lia. Qed.

Lemma last_deque_append x d : last (deque_append x d) = Some x.
Proof.
  unfold deque_append. rewrite last_lookup, lookup_drop, length_drop.
  rewrite length_app. simpl.
  replace (_ + _) with (length d) by (unfold LOG_MAXLEN; lia).
  by rewrite lookup_app_r, Nat.sub_diag.
Qed.

Lemma reachable_two_eat : reachable sys_two_eat.
Proof. exists ops_two_eat. vm_compute. reflexivity. Qed.

(** ** Mutual exclusion and ownership *)

(** C1. In every state reachable from the initial monitor by requests,
    re-checks of suspended requests, releases by an eating actor, shutdown
    and restart, no actor [i] and its neighbour [(i + 1) mod N] both eat. *)
Theorem mutual_exclusion (s : System) (i : nat) :
  reachable s → i < NUM_PHILOSOPHERS →
  ¬ (is_eating (mon s) i ∧ is_eating (mon s) (next_of i)).
Proof.
  intros Hr Hi [He Hn].
  destruct (Inv_reachable s Hr) as (_ & Heat & _).
  destruct (Heat i Hi He) as [_ Hright].
  destruct (Heat (next_of i) (next_of_lt i) Hn) as [Hleft _].
  rewrite left_of_next_of in Hleft by done.
  unfold holds in *. rewrite Hright in Hleft.
  inversion Hleft as [Heq]. by apply (next_of_neq i Hi).
Qed.

Lemma mutual_exclusion_witness :
  reachable sys_two_eat ∧ 0 < NUM_PHILOSOPHERS ∧
  ¬ (is_eating (mon sys_two_eat) 0 ∧ is_eating (mon sys_two_eat) (next_of 0)).
Proof.
  split; [apply reachable_two_eat|].
  split; [unfold NUM_PHILOSOPHERS; lia|].
  apply (mutual_exclusion sys_two_eat 0);
    [apply reachable_two_eat | unfold NUM_PHILOSOPHERS; lia].
Defined.

(** C2, counterexample.  After the second request actor 0 still has both its
    forks and is [HUNGRY], so "holds both" does not give "eats". *)
Lemma ownership_counterexample :
  run ops_request_twice System_init = Some sys_request_twice ∧
  holds_both (mon sys_request_twice) 0 ∧
  ¬ is_eating (mon sys_request_twice) 0 ∧
  ¬ ownership_consistent (mon sys_request_twice).
Proof.
  assert (holds_both (mon sys_request_twice) 0) as Hb by (split; reflexivity).
  assert (¬ is_eating (mon sys_request_twice) 0) as Hn by discriminate.
  split; [vm_compute; reflexivity|]. split; [done|]. split; [done|].
  intros [_ H]. apply Hn, (H 0); [unfold NUM_PHILOSOPHERS; lia|done].
Qed.

(** C2, amended.  In every reachable state a fork has at most one holder,
    and that holder is an actor next to it, and an actor that eats holds
    both its forks.  When moreover no actor calls [pickup_forks] while it
    eats, an actor that holds both its forks eats. *)
Theorem ownership_reachable (s : System) :
  reachable s →
  (∀ k a b, holds (mon s) a k → holds (mon s) b k → a = b) ∧
  (∀ k j, holds (mon s) j k → j < NUM_PHILOSOPHERS ∧ (k = j ∨ k = left_of j)) ∧
  (∀ i, i < NUM_PHILOSOPHERS → is_eating (mon s) i → holds_both (mon s) i) ∧
  (reachable_polite s →
   ∀ i, i < NUM_PHILOSOPHERS → is_eating (mon s) i ↔ holds_both (mon s) i).
Proof.
  intros Hr. destruct (Inv_reachable s Hr) as (_ & Heat & Hadj).
  split; [|split; [exact Hadj|split; [exact Heat|]]].
  - unfold holds. intros k a b Ha Hb. congruence.
  - intros Hp i Hi. split; [by apply Heat|].
    destruct (InvP_reachable_polite s Hp) as [_ Hh].
    intros [_ H]. by apply (Hh i).
Qed.

Lemma reachable_polite_two_eat : reachable_polite sys_two_eat.
Proof. exists ops_two_eat. vm_compute. reflexivity. Qed.

Lemma ownership_reachable_witness :
  reachable sys_two_eat ∧
  (is_eating (mon sys_two_eat) 2 ↔ holds_both (mon sys_two_eat) 2).
Proof.
  split; [apply reachable_two_eat|].
  destruct (ownership_reachable sys_two_eat reachable_two_eat) as (_ & _ & _ & H).
  apply (H reachable_polite_two_eat 2). unfold NUM_PHILOSOPHERS. lia.
Defined.

(** ** The request *)

Lemma Qle_bool_false (x y : Q) : Qle_bool x y = false ↔ (y < x)%Q.
Proof.
  rewrite <- not_true_iff_false, Qle_bool_iff. split.
  - apply Qnot_le_lt.
  - apply Qlt_not_le.
Qed.

(** The re-check of a request whose actor does not eat while the monitor
    runs: the deadline is [TIMEOUT] after [start_time]. *)
Lemma pickup_wait_loop_timeout i st now m :
  running m = true → ¬ is_eating m i → (TIMEOUT <= now - st)%Q →
  pickup_wait_loop i st now m =
  (log_event (msg_timed_out i) (set_state i DEADLOCK m), Return false).
Proof.
  intros Hrun Hne Hd. unfold pickup_wait_loop.
  rewrite Hrun, bool_decide_eq_false_2 by done. simpl.
  replace (Qle_bool _ 0) with true; [done|].
  symmetry. apply Qle_bool_iff. lra.
Qed.

Lemma pickup_wait_loop_early i st now m :
  running m = true → ¬ is_eating m i → (now - st < TIMEOUT)%Q →
  pickup_wait_loop i st now m = (m, Wait (TIMEOUT - (now - st))).
Proof.
  intros Hrun Hne Hd. unfold pickup_wait_loop.
  rewrite Hrun, bool_decide_eq_false_2 by done. simpl.
  replace (Qle_bool _ 0) with false; [done|].
  symmetry. apply Qle_bool_false. lra.
Qed.

Lemma pickup_wait_loop_stopped i st now m :
  running m = false → pickup_wait_loop i st now m = (m, Return false).
Proof.
  intros Hrun. unfold pickup_wait_loop. rewrite Hrun.
  by rewrite andb_false_r.
Qed.

Lemma pickup_wait_loop_eating i st now m :
  is_eating m i → pickup_wait_loop i st now m = (m, Return (running m)).
Proof.
  intros He. unfold pickup_wait_loop.
  rewrite bool_decide_eq_true_2 by done. simpl. by rewrite andb_true_r.
Qed.

(** A request returns [False] only on a stopped monitor, which it leaves
    as it is, or by the timeout, which happens on a running monitor. *)
Lemma pickup_wait_loop_false i st now m m' :
  wf m → i < NUM_PHILOSOPHERS →
  pickup_wait_loop i st now m = (m', Return false) →
  (running m = false ∧ m' = m) ∨
  (running m' = true ∧ state m' !! i = Some DEADLOCK).
Proof.
  intros Hwf Hi. unfold pickup_wait_loop.
  destruct (bool_decide (state m !! i = Some EATING)); simpl.
  - rewrite andb_true_r. intros [= <- Hrun]. by left.
  - destruct (running m) eqn:Hrun; simpl.
    + destruct (Qle_bool _ 0); [|done]. intros [= <-]. right.
      split; [done|]. simpl. apply list_lookup_insert_eq.
      destruct Hwf as [-> _]. done.
    + intros [= <-]. by left.
Qed.

Lemma pickup_forks_false i st now m m' :
  wf m → i < NUM_PHILOSOPHERS →
  pickup_forks i st now m = (m', Return false) →
  (running m = false ∧ m' = m) ∨
  (running m' = true ∧ state m' !! i = Some DEADLOCK).
Proof.
  intros Hwf Hi. unfold pickup_forks.
  destruct (running m) eqn:Hrun; simpl; [|intros [= <-]; by left].
  intros H. apply pickup_wait_loop_false in H; [|by apply wf_test, wf_set_state|done].
  destruct H as [[H _]|H]; [|by right].
  rewrite test_running in H. simpl in H. congruence.
Qed.

Lemma state_hungry_logged i m :
  wf m → i < NUM_PHILOSOPHERS →
  state (log_event (msg_hungry i) (set_state i HUNGRY m)) !! i = Some HUNGRY.
Proof.
  intros [Hs _] Hi. simpl. apply list_lookup_insert_eq. by rewrite Hs.
Qed.

(** A request on a running monitor, read before its deadline, leaves its
    actor [HUNGRY] or [EATING], whatever the actor's state was. *)
Lemma pickup_forks_early i st now m :
  wf m → i < NUM_PHILOSOPHERS → running m = true → (now - st < TIMEOUT)%Q →
  let r := pickup_forks i st now m in
  (r.2 = Return true ∧ state r.1 !! i = Some EATING) ∨
  (r.2 = Wait (TIMEOUT - (now - st)) ∧ state r.1 !! i = Some HUNGRY).
Proof.
  intros Hwf Hi Hrun Hearly. unfold pickup_forks. rewrite Hrun. simpl.
  set (m2 := log_event (msg_hungry i) (set_state i HUNGRY m)).
  assert (wf m2) as Hwf2 by (by apply wf_set_state).
  assert (state m2 !! i = Some HUNGRY) as Hh by (by apply state_hungry_logged).
  unfold test. destruct (can_eat i m2) eqn:Hc.
  - left.
    assert (is_eating (grant i m2) i) as He.
    { unfold is_eating. rewrite state_grant by done. by rewrite decide_True. }
    rewrite pickup_wait_loop_eating by done. simpl. by rewrite Hrun.
  - right. rewrite pickup_wait_loop_early; [done|done| |done].
    unfold is_eating. congruence.
Qed.

(** ** The philosopher loop *)

(** C3, counterexample.  The thread of actor 0, woken at time 7 from a
    request started at time 1, gets [False] by the timeout and is at the loop
    head, not out of the loop; the monitor still runs, so its next three
    transitions take it through thinking into a new request, which moves
    actor 0 from [DEADLOCK] to [HUNGRY] with no restart. *)
Lemma loop_exit_counterexample :
  run [Request 1 0 0; Request 0 1 1] System_init
    = Some (mkSystem mon_waiting [(0, 1%Q)]) ∧
  pickup_returns_false 0 1 7 (Blocked 1) mon_waiting = true ∧
  philosopher_step 0 1 7 (Blocked 1) mon_waiting = (AtLoopHead, mon_timed_out) ∧
  state mon_timed_out !! 0 = Some DEADLOCK ∧
  philosopher_steps 0 [(8, 8); (9, 9); (10, 10)]%Q AtLoopHead mon_timed_out
    = (Blocked 10, mon_hungry_again) ∧
  state mon_hungry_again !! 0 = Some HUNGRY ∧
  ¬ loop_exits_on_false.
Proof.
  assert (pickup_returns_false 0 1 7 (Blocked 1) mon_waiting = true) as Hf
    by (vm_compute; reflexivity).
  assert (philosopher_step 0 1 7 (Blocked 1) mon_waiting
          = (AtLoopHead, mon_timed_out)) as Hs by (vm_compute; reflexivity).
  repeat split; try (vm_compute; reflexivity); try done.
  intros H.
  specialize (H 0 1%Q 7%Q (Blocked 1) mon_waiting).
  rewrite Hs in H. simpl in H.
  discriminate H; [unfold NUM_PHILOSOPHERS; lia|split; reflexivity|exact Hf].
Qed.

(** C3, amended.  When a call of [pickup_forks] made from the loop returns
    [False], the thread is back at the loop head.  Either the monitor was
    stopped and the call changed nothing, or the call timed out: then the
    monitor runs and the actor is [DEADLOCK].  At the loop head the thread
    leaves the loop exactly when [running] is false, and otherwise logs
    "thinking" and goes on; a request it then issues on a running monitor,
    read before the deadline, leaves the actor [HUNGRY] or [EATING]. *)
Theorem false_return_reaches_loop_head (id : nat) (st now : Q) (pc : PC) (m : Monitor) :
  wf m → id < NUM_PHILOSOPHERS →
  pickup_returns_false id st now pc m = true →
  let r := philosopher_step id st now pc m in
  r.1 = AtLoopHead ∧
  ((running m = false ∧ r.2 = m) ∨
   (running r.2 = true ∧ state r.2 !! id = Some DEADLOCK)) ∧
  (∀ st' now',
     philosopher_step id st' now' AtLoopHead r.2 =
     if running r.2 then (Thinking, log_event (msg_thinking id) r.2)
     else (Exited, r.2)) ∧
  (∀ m2 st' now',
     wf m2 → running m2 = true → (now' - st' < TIMEOUT)%Q →
     let r2 := philosopher_step id st' now' Requesting m2 in
     (r2.1 = Dining ∧ state r2.2 !! id = Some EATING) ∨
     (r2.1 = Blocked st' ∧ state r2.2 !! id = Some HUNGRY)).
Proof.
  intros Hwf Hid Hf. simpl.
  assert (∃ m', philosopher_step id st now pc m = (AtLoopHead, m') ∧
                ((running m = false ∧ m' = m) ∨
                 (running m' = true ∧ state m' !! id = Some DEADLOCK)))
    as (m' & -> & Hcase).
  { destruct pc as [| | |st0| |]; simpl in Hf; try discriminate.
    - simpl. destruct (pickup_forks id st now m) as [m' [[|]|r]] eqn:Hp;
        simpl in Hf; try discriminate.
      exists m'. split; [done|]. by apply (pickup_forks_false id st now).
    - simpl. destruct (pickup_wait_loop id st0 now m) as [m' [[|]|r]] eqn:Hp;
        simpl in Hf; try discriminate.
      exists m'. split; [done|]. by apply (pickup_wait_loop_false id st0 now). }
  simpl. split; [done|]. split; [done|]. split; [done|].
  intros m2 st' now' Hwf2 Hrun2 Hearly.
  destruct (pickup_forks_early id st' now' m2 Hwf2 Hid Hrun2 Hearly)
    as [[Ho Hs]|[Ho Hs]];
    destruct (pickup_forks id st' now' m2) as [m3 o]; simpl in *; subst o;
    [left|right]; done.
Qed.

Lemma false_return_reaches_loop_head_witness :
  (philosopher_step 0 1 7 (Blocked 1) mon_waiting).1 = AtLoopHead.
Proof.
  apply (false_return_reaches_loop_head 0 1 7 (Blocked 1) mon_waiting).
  - split; reflexivity.
  - unfold NUM_PHILOSOPHERS. lia.
  - vm_compute. reflexivity.
Defined.

(** ** The timeout *)

(** C4, counterexample.  The request of actor 0, started at time 1, is
    re-checked at time 7 on a monitor stopped in between: the deadline is
    over and actor 0 does not eat, yet the call returns [False] with actor 0
    still [HUNGRY] and nothing logged. *)
Lemma deadline_counterexample :
  run [Request 1 0 0; Request 0 1 1; Shutdown] System_init
    = Some (mkSystem mon_stopped [(0, 1%Q)]) ∧
  pickup_wait_loop 0 1 7 mon_stopped = (mon_stopped, Return false) ∧
  state mon_stopped !! 0 = Some HUNGRY ∧
  ¬ deadline_gives_deadlock 0 1 7 mon_stopped.
Proof.
  split; [vm_compute; reflexivity|]. split; [vm_compute; reflexivity|].
  split; [reflexivity|].
  intros H. destruct H as (H & _ & _).
  - vm_compute. discriminate.
  - discriminate.
  - vm_compute in H. discriminate.
Qed.

Lemma pickup_rechecks_early i st ws r0 m :
  running m = true → ¬ is_eating m i →
  Forall (λ w, (w - st < TIMEOUT)%Q) ws →
  ∀ rest, pickup_rechecks i st (ws ++ rest) (m, Wait r0)
          = match rest with
            | [] => (m, None)
            | now :: rest' =>
                pickup_rechecks i st rest' (pickup_wait_loop i st now m)
            end.
Proof.
  intros Hrun Hne Hws. revert r0.
  induction Hws as [|w ws Hw _ IH]; intros r0 rest; [by destruct rest|].
  simpl. rewrite pickup_wait_loop_early by done. apply IH.
Qed.

(** C4, amended.  When a re-check of a request of actor [i] finds the
    deadline over ([TIMEOUT] or more since [start_time]), actor [i] not
    eating and the monitor running, it sets actor [i] to [DEADLOCK], appends
    the timed-out entry and returns [False], touching nothing else; wake-ups
    before the deadline do not move the deadline.  On a stopped monitor the
    same re-check returns [False] and changes nothing. *)
Theorem deadline_sets_deadlock (i : nat) (st now : Q) (m : Monitor) :
  wf m → i < NUM_PHILOSOPHERS →
  (TIMEOUT <= now - st)%Q → ¬ is_eating m i →
  let r := pickup_wait_loop i st now m in
  r.2 = Return false ∧
  (running m = false → r.1 = m) ∧
  (running m = true →
     state r.1 !! i = Some DEADLOCK ∧
     last (log r.1) = Some (msg_timed_out i) ∧
     (∀ j, j ≠ i → state r.1 !! j = state m !! j) ∧
     forks_in_use r.1 = forks_in_use m ∧
     running r.1 = true ∧
     ∀ ws r0, Forall (λ w, (w - st < TIMEOUT)%Q) ws →
       pickup_rechecks i st (ws ++ [now]) (m, Wait r0) = (r.1, Some false)).
Proof.
  intros [Hs Hf] Hi Hd Hne. simpl.
  destruct (running m) eqn:Hrun.
  - rewrite pickup_wait_loop_timeout by done. simpl.
    split; [done|]. split; [done|]. intros _.
    split; [apply list_lookup_insert_eq; by rewrite Hs|].
    split; [apply last_deque_append|].
    split; [intros j Hj; by apply list_lookup_insert_ne|].
    split; [done|]. split; [done|].
    intros ws r0 Hws. rewrite pickup_rechecks_early by done.
    by rewrite pickup_wait_loop_timeout.
  - rewrite pickup_wait_loop_stopped by done. simpl. done.
Qed.

Lemma deadline_sets_deadlock_witness :
  (pickup_wait_loop 0 1 7 mon_waiting).2 = Return false.
Proof.
  apply (deadline_sets_deadlock 0 1 7 mon_waiting).
  - split; reflexivity.
  - unfold NUM_PHILOSOPHERS. lia.
  - vm_compute. discriminate.
  - discriminate.
Defined.

(** ** The release *)

(** C5, counterexample.  Actor 0 releases while no neighbour is hungry: no
    [notify_all] is issued. *)
Lemma release_counterexample :
  run [Request 0 0 0] System_init = Some (mkSystem mon_zero_eats []) ∧
  condition (putdown_forks 0 mon_zero_eats) = condition mon_zero_eats ∧
  ¬ release_notifies.
Proof.
  split; [vm_compute; reflexivity|]. split; [vm_compute; reflexivity|].
  intros H. specialize (H 0 mon_zero_eats).
  vm_compute in H.
  assert (2 ≤ 1) as Habs; [|lia].
  apply H; [split; reflexivity|lia|reflexivity].
Qed.

(** C5, amended.  [putdown_forks(i)] sets actor [i] to [THINKING], frees
    forks [(i - 1) mod N] and [i], appends the entry of actor [i], then runs
    [test] for [(i - 1) mod N] and for [(i + 1) mod N]; actor [i] is
    [THINKING] at the end.  It issues no notification itself: the waiters
    are notified once per neighbour that [test] grants, and not at all when
    neither is granted. *)
Theorem release_effect (i : nat) (m : Monitor) :
  wf m → i < NUM_PHILOSOPHERS →
  let m1 := put_back i m in
  let m2 := test (left_of i) m1 in
  state m1 !! i = Some THINKING ∧
  is_free m1 (left_of i) ∧ is_free m1 i ∧
  last (log m1) = Some (msg_stopped i) ∧
  condition m1 = condition m ∧
  putdown_forks i m = test (next_of i) m2 ∧
  state (putdown_forks i m) !! i = Some THINKING ∧
  condition (putdown_forks i m) =
    condition m + (if can_eat (left_of i) m1 then 1 else 0)
                + (if can_eat (next_of i) m2 then 1 else 0).
Proof.
  intros Hwf Hi. simpl.
  assert (state (put_back i m) !! i = Some THINKING) as Hst.
  { rewrite state_put_back by done. by rewrite decide_True. }
  split; [done|].
  split; [unfold is_free; rewrite forks_put_back by done; by rewrite decide_True; auto|].
  split; [unfold is_free; rewrite forks_put_back by done; by rewrite decide_True; auto|].
  split; [apply last_deque_append|]. split; [done|].
  unfold putdown_forks. rewrite prev_of_left_of by done.
  split; [done|]. split.
  - rewrite !test_state_other; [done|..].
    + by apply not_eq_sym, left_of_neq.
    + by apply not_eq_sym, next_of_neq.
  - rewrite !test_condition. done.
Qed.

Lemma release_effect_witness :
  state (putdown_forks 0 mon_zero_eats) !! 0 = Some THINKING.
Proof.
  apply (release_effect 0 mon_zero_eats).
  - split; reflexivity.
  - unfold NUM_PHILOSOPHERS. lia.
Defined.

(** ** Requests on a stopped monitor *)

(** C6. With [running] false, [pickup_forks(i)] returns [False] and the
    monitor (states, forks, log, all of it) is as before. *)
Theorem request_when_stopped (i : nat) (st now : Q) (ws : list Q) (m : Monitor) :
  i < NUM_PHILOSOPHERS → running m = false →
  pickup_forks i st now m = (m, Return false) ∧
  pickup_forks_alone i st now ws m = (m, Some false).
Proof.
  intros _ Hrun. unfold pickup_forks_alone, pickup_forks. rewrite Hrun.
  simpl. split; [done|]. by destruct ws.
Qed.

Lemma request_when_stopped_witness :
  pickup_forks 0 1 7 mon_stopped = (mon_stopped, Return false) ∧
  pickup_forks_alone 0 1 7 [] mon_stopped = (mon_stopped, Some false).
Proof.
  apply (request_when_stopped 0 1 7 [] mon_stopped).
  - unfold NUM_PHILOSOPHERS. lia.
  - reflexivity.
Defined.

(** ** The grant inside a release *)

(** C7. Actor [A] eats, its neighbour [B] is hungry and the fork of [B] that
    it does not share with [A] is free: when [putdown_forks(A)] is over, [B]
    eats and holds both its forks. *)
Theorem release_cascade (A B : nat) (m : Monitor) :
  wf m → A < NUM_PHILOSOPHERS → is_eating m A →
  state m !! B = Some HUNGRY →
  (B = next_of A ∧ is_free m B) ∨ (B = left_of A ∧ is_free m (left_of B)) →
  is_eating (putdown_forks A m) B ∧ holds_both (putdown_forks A m) B.
Proof.
  intros Hwf HA _ HB Hadj. unfold putdown_forks.
  rewrite prev_of_left_of by done.
  pose proof (left_of_lt A HA) as HlA.
  pose proof (next_of_lt A) as HnA.
  pose proof (wf_put_back A m Hwf) as Hwf1.
  set (m1 := put_back A m) in *.
  destruct Hadj as [[-> Hfree]|[-> Hfree]].
  - (* B is the right neighbour: the first [test] leaves it alone *)
    set (m2 := test (left_of A) m1).
    assert (wf m2) as Hwf2 by (by apply wf_test).
    apply test_grants; [done|done|..].
    + unfold m2. rewrite test_state_other by (by apply not_eq_sym, left_of_neq_next_of).
      unfold m1. rewrite state_put_back by done.
      rewrite decide_False; [done|by apply next_of_neq].
    + rewrite left_of_next_of by done. unfold is_free, m2.
      rewrite test_forks_other;
        [|by apply not_eq_sym, left_of_neq|by apply not_eq_sym, left_of_left_of_neq].
      unfold m1. rewrite forks_put_back by done. by rewrite decide_True; auto.
    + unfold is_free, m2.
      rewrite test_forks_other;
        [|by apply not_eq_sym, left_of_neq_next_of
         |by apply not_eq_sym, left_of_left_of_neq_next_of].
      unfold m1. rewrite forks_put_back by done.
      rewrite decide_False; [done|].
      intros [E|E]; [by apply (next_of_neq A)|by apply (left_of_neq_next_of A)].
  - (* B is the left neighbour: the first [test] grants, the second keeps it *)
    destruct (test_grants (left_of A) m1) as (_ & He & Hl & Hr); [done|done|..].
    + unfold m1. rewrite state_put_back by done.
      rewrite decide_False; [done|by apply left_of_neq].
    + unfold is_free, m1. rewrite forks_put_back by done.
      rewrite decide_False; [done|].
      intros [E|E]; [by apply (left_of_left_of_neq A)|].
      by apply (left_of_neq (left_of A)).
    + unfold is_free, m1. rewrite forks_put_back by done.
      by rewrite decide_True; auto.
    + unfold is_eating, holds_both, holds in *.
      rewrite test_state_other by (by apply left_of_neq_next_of).
      assert (left_of (next_of A) = A) as Hln by (by apply left_of_next_of).
      split; [done|]. split.
      * rewrite test_forks_other; [done|by apply left_of_left_of_neq_next_of|].
        rewrite Hln. by apply left_of_left_of_neq.
      * rewrite test_forks_other; [done|by apply left_of_neq_next_of|].
        rewrite Hln. by apply left_of_neq.
Qed.

Lemma release_cascade_witness :
  is_eating (putdown_forks 0 mon_one_waits) 1 ∧
  holds_both (putdown_forks 0 mon_one_waits) 1.
Proof.
  apply (release_cascade 0 1 mon_one_waits).
  - split; reflexivity.
  - unfold NUM_PHILOSOPHERS. lia.
  - reflexivity.
  - reflexivity.
  - left. split; reflexivity.
Defined.

(** ** The grant without waiting *)

(** C8. On a running monitor with both forks of actor [i] free,
    [pickup_forks(i)] returns [True] in its entry transition, whatever the
    clock says: it never reaches [wait]; actor [i] eats and both forks are
    recorded for [i]. *)
Theorem request_uncontended (i : nat) (st now : Q) (m : Monitor) :
  wf m → i < NUM_PHILOSOPHERS → running m = true →
  is_free m (left_of i) → is_free m i →
  let r := pickup_forks i st now m in
  r.2 = Return true ∧
  r.1 = grant i (log_event (msg_hungry i) (set_state i HUNGRY m)) ∧
  is_eating r.1 i ∧ holds_both r.1 i.
Proof.
  intros Hwf Hi Hrun Hl Hr. simpl. unfold pickup_forks. rewrite Hrun. simpl.
  set (m2 := log_event (msg_hungry i) (set_state i HUNGRY m)).
  destruct (test_grants i m2) as (Ht & He & Hb).
  - by apply wf_set_state.
  - done.
  - by apply state_hungry_logged.
  - exact Hl.
  - exact Hr.
  - rewrite pickup_wait_loop_eating by done. simpl.
    rewrite test_running. simpl. rewrite Hrun. by rewrite <- Ht.
Qed.

Lemma request_uncontended_witness :
  (pickup_forks 2 3 4 mon_zero_eats).2 = Return true.
Proof.
  apply (request_uncontended 2 3 4 mon_zero_eats).
  - split; reflexivity.
  - unfold NUM_PHILOSOPHERS. lia.
  - reflexivity.
  - reflexivity.
  - reflexivity.
Defined.

(** ** Restart *)

Lemma state_clear_deadlock m i j :
  state (clear_deadlock m i) !! j =
  if decide (j = i) then cleared <$> state m !! j else state m !! j.
Proof.
  unfold clear_deadlock. case_bool_decide as Hd.
  - simpl. rewrite list_lookup_insert.
    pose proof (lookup_lt_Some _ _ _ Hd).
    destruct (decide (j = i)) as [->|Hne].
    + rewrite decide_True by done. by rewrite Hd.
    + rewrite decide_False; [done|]. intros [? _]. congruence.
  - case_decide; [subst j|done].
    destruct (state m !! i) as [[]|]; done.
Qed.

Lemma forks_clear_deadlock l m :
  forks_in_use (foldl clear_deadlock m l) = forks_in_use m ∧
  running (foldl clear_deadlock m l) = running m ∧
  log (foldl clear_deadlock m l) = log m ∧
  condition (foldl clear_deadlock m l) = condition m.
Proof.
  revert m. induction l as [|i l IH]; intros m; [done|]. simpl.
  destruct (IH (clear_deadlock m i)) as (-> & -> & -> & ->).
  unfold clear_deadlock. by destruct (bool_decide _).
Qed.

Lemma state_foldl_clear_deadlock l m j :
  state (foldl clear_deadlock m l) !! j =
  if decide (j ∈ l) then cleared <$> state m !! j else state m !! j.
Proof.
  revert m. induction l as [|i l IH]; intros m; cbn [foldl].
  - rewrite decide_False; [done|]. apply not_elem_of_nil.
  - rewrite IH, state_clear_deadlock.
    destruct (decide (j = i)) as [->|Hji].
    + rewrite (decide_True (P := i ∈ i :: l)) by apply list_elem_of_here.
      case_decide; by destruct (state m !! i) as [[]|].
    + destruct (decide (j ∈ l)) as [Hin|Hnin].
      * rewrite (decide_True (P := j ∈ i :: l)); [done|].
        by apply list_elem_of_further.
      * rewrite (decide_False (P := j ∈ i :: l)); [done|].
        rewrite elem_of_cons. tauto.
Qed.

(** C9. The restart branch sets [running] to true and turns every
    [DEADLOCK] actor into [THINKING]; the other actors, the forks and the log
    stay as they are.  So after [stop] and restart every actor that was
    [DEADLOCK] is [THINKING]. *)
Theorem restart_effect (m : Monitor) :
  wf m →
  running (restart m) = true ∧
  state (restart m) = cleared <$> state m ∧
  (∀ i, i < NUM_PHILOSOPHERS → state m !! i = Some DEADLOCK →
        state (restart m) !! i = Some THINKING) ∧
  (∀ i s, state m !! i = Some s → s ≠ DEADLOCK → state (restart m) !! i = Some s) ∧
  forks_in_use (restart m) = forks_in_use m ∧
  log (restart m) = log m ∧
  (∀ i, i < NUM_PHILOSOPHERS → state m !! i = Some DEADLOCK →
        state (restart (stop m)) !! i = Some THINKING).
Proof.
  intros [Hs Hf].
  assert (∀ m0, length (state m0) = NUM_PHILOSOPHERS →
                state (restart m0) = cleared <$> state m0) as Hall.
  { intros m0 Hs0. apply list_eq. intros j. unfold restart.
    rewrite state_foldl_clear_deadlock, list_lookup_fmap.
    change (state (set_running true m0)) with (state m0).
    case_decide as Hin; [done|].
    rewrite elem_of_seq in Hin.
    rewrite lookup_ge_None_2; [done|]. rewrite Hs0. lia. }
  destruct (forks_clear_deadlock (seq 0 NUM_PHILOSOPHERS) (set_running true m))
    as (Hfk & Hrn & Hlg & _).
  fold (restart m) in Hfk, Hrn, Hlg.
  split; [done|]. split; [by apply Hall|].
  split; [intros i _ Hd; by rewrite Hall, list_lookup_fmap, Hd|].
  split; [intros i s Hd Hne; rewrite Hall, list_lookup_fmap, Hd by done;
          by destruct s|].
  split; [done|]. split; [done|].
  intros i _ Hd. rewrite Hall by done. simpl. by rewrite list_lookup_fmap, Hd.
Qed.

Lemma restart_effect_witness :
  running (restart mon_deadlocked) = true ∧
  state (restart mon_deadlocked) = cleared <$> state mon_deadlocked.
Proof.
  destruct (restart_effect mon_deadlocked) as (H1 & H2 & _).
  - split; reflexivity.
  - split; [exact H1|exact H2].
Defined.

(** ** The frame of a request *)

Lemma pickup_wait_loop_frame i st now m :
  (∀ j, j ≠ i → state (pickup_wait_loop i st now m).1 !! j = state m !! j) ∧
  forks_in_use (pickup_wait_loop i st now m).1 = forks_in_use m.
Proof.
  unfold pickup_wait_loop.
  destruct (negb _ && running m); [|done].
  destruct (Qle_bool _ 0); [|done]. simpl.
  split; [|done]. intros j Hj. by apply list_lookup_insert_ne.
Qed.

Lemma pickup_forks_frame i st now m :
  (∀ j, j ≠ i → state (pickup_forks i st now m).1 !! j = state m !! j) ∧
  (∀ k, k ≠ i → k ≠ left_of i →
        forks_in_use (pickup_forks i st now m).1 !! k = forks_in_use m !! k).
Proof.
  unfold pickup_forks. destruct (running m); [|done]. simpl.
  set (m2 := log_event (msg_hungry i) (set_state i HUNGRY m)).
  destruct (pickup_wait_loop_frame i st now (test i m2)) as [Hs Hf].
  split.
  - intros j Hj. rewrite Hs, test_state_other by done.
    simpl. by apply list_lookup_insert_ne.
  - intros k Hk Hl. rewrite Hf, test_forks_other by done. done.
Qed.

Lemma pickup_rechecks_frame i st ws r :
  (∀ j, j ≠ i → state (pickup_rechecks i st ws r).1 !! j = state r.1 !! j) ∧
  forks_in_use (pickup_rechecks i st ws r).1 = forks_in_use r.1.
Proof.
  revert r. induction ws as [|w ws IH]; intros [m [b|rem]]; simpl; try done.
  destruct (IH (pickup_wait_loop i st w m)) as [Hs Hf].
  destruct (pickup_wait_loop_frame i st w m) as [Hs' Hf'].
  split.
  - intros j Hj. by rewrite Hs, Hs'.
  - by rewrite Hf, Hf'.
Qed.

(** C10. A call of [pickup_forks(i)] on its own (its entry transition, each
    of its re-checks, and the whole call with no other thread in between)
    leaves the state of every other actor and every fork other than
    [(i - 1) mod N] and [i] as they are. *)
Theorem request_frame (i : nat) (st now : Q) (ws : list Q) (m : Monitor) :
  i < NUM_PHILOSOPHERS →
  (∀ j, j ≠ i →
     state (pickup_forks i st now m).1 !! j = state m !! j ∧
     state (pickup_wait_loop i st now m).1 !! j = state m !! j ∧
     state (pickup_forks_alone i st now ws m).1 !! j = state m !! j) ∧
  (∀ k, k ≠ i → k ≠ left_of i →
     forks_in_use (pickup_forks i st now m).1 !! k = forks_in_use m !! k ∧
     forks_in_use (pickup_wait_loop i st now m).1 !! k = forks_in_use m !! k ∧
     forks_in_use (pickup_forks_alone i st now ws m).1 !! k = forks_in_use m !! k).
Proof.
  intros _.
  destruct (pickup_forks_frame i st now m) as [Hs Hf].
  destruct (pickup_wait_loop_frame i st now m) as [Hs' Hf'].
  destruct (pickup_rechecks_frame i st ws (pickup_forks i st now m)) as [Hs2 Hf2].
  unfold pickup_forks_alone. split.
  - intros j Hj. rewrite Hs2, Hs, Hs' by done. done.
  - intros k Hk Hl. rewrite Hf2, Hf', Hf by done. done.
Qed.

Lemma request_frame_witness :
  state (pickup_forks 1 1 1 mon_zero_eats).1 !! 0 = state mon_zero_eats !! 0.
Proof.
  destruct (request_frame 1 1 1 [] mon_zero_eats) as [H _].
  - unfold NUM_PHILOSOPHERS. lia.
  - apply (H 0). discriminate.
Defined.

(** ** The bounded log *)

Lemma length_deque_append x d :
  length (deque_append x d) = S (length d) `min` LOG_MAXLEN.
Proof.
  unfold deque_append, LOG_MAXLEN. rewrite length_drop, length_app. simpl. lia.
Qed.

Lemma deque_append_short x d :
  length d < LOG_MAXLEN → deque_append x d = d ++ [x].
Proof.
  intros H. unfold deque_append. rewrite length_app. simpl.
  replace (_ - _) with 0 by (unfold LOG_MAXLEN in *; lia). done.
Qed.

Lemma deque_append_full x d :
  length d = LOG_MAXLEN → deque_append x d = drop 1 d ++ [x].
Proof.
  intros H. unfold deque_append. rewrite length_app, H. simpl.
  rewrite drop_app_le; [done|]. rewrite H. unfold LOG_MAXLEN. lia.
Qed.

Lemma log_bounded_log_event msg m : log_bounded (log_event msg m).
Proof. unfold log_bounded. simpl. rewrite length_deque_append. lia. Qed.

Lemma log_bounded_frame m m' : log m' = log m → log_bounded m → log_bounded m'.
Proof. unfold log_bounded. by intros ->. Qed.

Lemma log_bounded_test i m : log_bounded m → log_bounded (test i m).
Proof.
  intros H. unfold test. destruct (can_eat i m); [|done].
  apply log_bounded_log_event.
Qed.

Lemma log_bounded_pickup_wait_loop i st now m :
  log_bounded m → log_bounded (pickup_wait_loop i st now m).1.
Proof.
  intros H. unfold pickup_wait_loop.
  destruct (negb _ && running m); [|done].
  destruct (Qle_bool _ 0); [|done]. apply log_bounded_log_event.
Qed.

Lemma log_bounded_pickup_forks i st now m :
  log_bounded m → log_bounded (pickup_forks i st now m).1.
Proof.
  intros H. unfold pickup_forks. destruct (running m); [|done]. simpl.
  apply log_bounded_pickup_wait_loop, log_bounded_test, log_bounded_log_event.
Qed.

Lemma log_bounded_putdown_forks i m : log_bounded (putdown_forks i m).
Proof.
  unfold putdown_forks, put_back.
  do 2 apply log_bounded_test. apply log_bounded_log_event.
Qed.

Lemma log_bounded_restart m : log_bounded m → log_bounded (restart m).
Proof.
  apply log_bounded_frame. unfold restart.
  by destruct (forks_clear_deadlock (seq 0 NUM_PHILOSOPHERS) (set_running true m))
    as (_ & _ & -> & _).
Qed.

Lemma log_bounded_philosopher_step id st now pc m :
  log_bounded m → log_bounded (philosopher_step id st now pc m).2.
Proof.
  intros H. destruct pc as [| | |st0| |]; simpl.
  - destruct (running m); [apply log_bounded_log_event|done].
  - by destruct (negb (running m)).
  - pose proof (log_bounded_pickup_forks id st now m H) as H'.
    by destruct (pickup_forks id st now m) as [m' [[|]|r]].
  - pose proof (log_bounded_pickup_wait_loop id st0 now m H) as H'.
    by destruct (pickup_wait_loop id st0 now m) as [m' [[|]|r]].
  - apply log_bounded_putdown_forks.
  - done.
Qed.

Lemma monitor_spawn_all p : monitor (spawn_all p) = monitor p.
Proof. reflexivity. Qed.

Lemma log_bounded_program_step ev p :
  log_bounded (monitor p) → log_bounded (monitor (program_step ev p)).
Proof.
  intros H. destruct ev as [k st now|]; simpl.
  - destruct (threads p !! k) as [[id pc]|]; [|done].
    pose proof (log_bounded_philosopher_step id st now pc (monitor p) H) as H'.
    by destruct (philosopher_step id st now pc (monitor p)).
  - unfold click. destruct (running (monitor p)); [done|].
    rewrite monitor_spawn_all. by apply log_bounded_restart.
Qed.

Lemma log_bounded_run_program evs p :
  log_bounded (monitor p) → log_bounded (monitor (run_program evs p)).
Proof.
  revert p. induction evs as [|ev evs IH]; intros p H; [done|].
  apply IH. by apply log_bounded_program_step.
Qed.

(** X1. The log never holds more than 20 entries: [log_event] appends the
    message at the end, and on a full log drops the oldest entry and keeps
    the order of the others; so every state of the program, whatever the
    threads and the button do, has at most 20 log entries. *)
Theorem log_never_exceeds_maxlen (msg : string) (m : Monitor) (evs : list Event) :
  last (log (log_event msg m)) = Some msg ∧
  length (log (log_event msg m)) = S (length (log m)) `min` LOG_MAXLEN ∧
  (length (log m) < LOG_MAXLEN → log (log_event msg m) = log m ++ [msg]) ∧
  (length (log m) = LOG_MAXLEN → log (log_event msg m) = drop 1 (log m) ++ [msg]) ∧
  log_bounded (monitor (run_program evs main_init)).
Proof.
  split; [apply last_deque_append|].
  split; [apply length_deque_append|].
  split; [apply deque_append_short|].
  split; [apply deque_append_full|].
  apply log_bounded_run_program. unfold log_bounded. simpl. lia.
Qed.

Lemma log_never_exceeds_maxlen_witness :
  log (log_event "P0 thinking" Monitor_init) = log Monitor_init ++ ["P0 thinking"].
Proof.
  destruct (log_never_exceeds_maxlen "P0 thinking" Monitor_init [])
    as (_ & _ & H & _).
  apply H. unfold LOG_MAXLEN. simpl. lia.
Defined.

(** ** More on [test] *)

Lemma can_eat_grant i m : can_eat i m = true → can_eat i (grant i m) = false.
Proof.
  intros Hc. apply can_eat_true in Hc as (Hh & _ & _).
  apply not_true_is_false. intros Hc'.
  apply can_eat_true in Hc' as (Hh' & _ & _).
  simpl in Hh'. rewrite list_lookup_insert_eq in Hh'; [done|].
  by apply lookup_lt_Some in Hh.
Qed.

(** X2. [test] is idempotent: a second [test(i)] right after the first
    changes nothing (no second grant, no second notification or log
    entry). *)
Theorem test_idempotent (i : nat) (m : Monitor) :
  test i (test i m) = test i m.
Proof.
  unfold test at 2 3. destruct (can_eat i m) eqn:Hc.
  - unfold test. by rewrite can_eat_grant.
  - unfold test. by rewrite Hc.
Qed.

Lemma test_keeps_holder i m a k : holds m a k → holds (test i m) a k.
Proof.
  unfold holds, test. intros H. destruct (can_eat i m) eqn:Hc; [|done].
  apply can_eat_true in Hc as (_ & Hl & Hr). unfold is_free in *. simpl.
  rewrite !list_lookup_insert_ne; [done|congruence|congruence].
Qed.

Lemma test_keeps_eating i m j : is_eating m j → is_eating (test i m) j.
Proof.
  unfold is_eating, test. intros H. destruct (can_eat i m) eqn:Hc; [|done].
  apply can_eat_true in Hc as (Hh & _ & _). simpl.
  rewrite list_lookup_insert_ne; [done|congruence].
Qed.

(** X3. A request never takes a fork from its holder and never frees one: a
    fork recorded for actor [a] is still recorded for [a] after the entry
    transition of [pickup_forks(i)], after any of its re-checks and after
    [test(i)], for every [i]. *)
Theorem request_never_steals (i a k : nat) (st now : Q) (m : Monitor) :
  holds m a k →
  holds (test i m) a k ∧
  holds (pickup_forks i st now m).1 a k ∧
  holds (pickup_wait_loop i st now m).1 a k.
Proof.
  intros H.
  assert (∀ m0, holds m0 a k → holds (pickup_wait_loop i st now m0).1 a k) as Hw.
  { intros m0 H0. unfold holds.
    by destruct (pickup_wait_loop_frame i st now m0) as [_ ->]. }
  split; [by apply test_keeps_holder|]. split; [|by apply Hw].
  unfold pickup_forks. destruct (running m); [|done]. simpl.
  by apply Hw, test_keeps_holder.
Qed.

Lemma request_never_steals_witness :
  holds (pickup_forks 1 1 1 mon_zero_eats).1 0 0.
Proof.
  apply (request_never_steals 1 0 0 1 1 mon_zero_eats). reflexivity.
Defined.

(** ** More on the release *)

Lemma test_state_change i m j s :
  state (test i m) !! j = Some s →
  state m !! j = Some s ∨ (j = i ∧ state m !! j = Some HUNGRY ∧ s = EATING).
Proof.
  unfold test. destruct (can_eat i m) eqn:Hc; [|by left].
  apply can_eat_true in Hc as (Hh & _ & _). simpl. intros H.
  apply list_lookup_insert_Some in H as [(-> & <- & _)|[_ H]]; [by right|by left].
Qed.

Lemma put_back_running i m : running (put_back i m) = running m.
Proof. reflexivity. Qed.

Lemma putdown_forks_running i m : running (putdown_forks i m) = running m.
Proof. unfold putdown_forks. by rewrite !test_running. Qed.

(** X4. [putdown_forks(i)] touches the states of [i] and its two neighbours
    only, and the forks [i-2], [i-1], [i], [i+1] (mod N) only; it leaves
    [running] alone; and the only state changes it makes are [i] to
    [THINKING] and a [HUNGRY] actor to [EATING]. *)
Theorem release_frame (i : nat) (m : Monitor) :
  i < NUM_PHILOSOPHERS →
  (∀ j, j ≠ i → j ≠ left_of i → j ≠ next_of i →
        state (putdown_forks i m) !! j = state m !! j) ∧
  (∀ k, k ≠ i → k ≠ left_of i → k ≠ left_of (left_of i) → k ≠ next_of i →
        forks_in_use (putdown_forks i m) !! k = forks_in_use m !! k) ∧
  running (putdown_forks i m) = running m ∧
  (∀ j s, state (putdown_forks i m) !! j = Some s →
          state m !! j = Some s ∨ (j = i ∧ s = THINKING) ∨
          (state m !! j = Some HUNGRY ∧ s = EATING)).
Proof.
  intros Hi.
  assert (∀ j s, state (put_back i m) !! j = Some s →
                 state m !! j = Some s ∨ (j = i ∧ s = THINKING)) as Hpb.
  { intros j s H. simpl in H.
    apply list_lookup_insert_Some in H as [(-> & <- & _)|[_ H]]; [by right|by left]. }
  unfold putdown_forks. rewrite prev_of_left_of by done.
  split; [|split; [|split]].
  - intros j H1 H2 H3. rewrite !test_state_other by done.
    simpl. by apply list_lookup_insert_ne.
  - intros k H1 H2 H3 H4.
    rewrite test_forks_other; [|done|by rewrite left_of_next_of].
    rewrite test_forks_other by done.
    simpl. by rewrite !list_lookup_insert_ne.
  - by rewrite !test_running.
  - intros j s H.
    apply test_state_change in H as [H|(-> & H & ->)].
    + apply test_state_change in H as [H|(-> & H & ->)].
      * destruct (Hpb _ _ H) as [?|[? ?]]; auto.
      * destruct (Hpb _ _ H) as [?|[? ?]]; [auto|discriminate].
    + apply test_state_change in H as [H|(_ & _ & ?)]; [|discriminate].
      destruct (Hpb _ _ H) as [?|[? ?]]; [auto|discriminate].
Qed.

Lemma release_frame_witness :
  running (putdown_forks 0 mon_one_waits) = running mon_one_waits.
Proof.
  apply (release_frame 0 mon_one_waits). unfold NUM_PHILOSOPHERS. lia.
Defined.

(** The grant inside [putdown_forks], for either neighbour. *)
Lemma putdown_forks_grants A B m :
  wf m → A < NUM_PHILOSOPHERS →
  state m !! B = Some HUNGRY →
  (B = next_of A ∧ is_free m B) ∨ (B = left_of A ∧ is_free m (left_of B)) →
  is_eating (putdown_forks A m) B ∧ holds_both (putdown_forks A m) B.
Proof.
  intros Hwf HA HB Hadj. unfold putdown_forks.
  rewrite prev_of_left_of by done.
  pose proof (left_of_lt A HA) as HlA.
  pose proof (next_of_lt A) as HnA.
  pose proof (wf_put_back A m Hwf) as Hwf1.
  assert (left_of (next_of A) = A) as Hln by (by apply left_of_next_of).
  pose proof (left_of_neq A HA) as N1.
  pose proof (next_of_neq A HA) as N2.
  pose proof (left_of_neq_next_of A HA) as N3.
  pose proof (left_of_left_of_neq A HA) as N4.
  pose proof (left_of_left_of_neq_next_of A HA) as N5.
  pose proof (left_of_neq (left_of A) HlA) as N6.
  set (m1 := put_back A m) in *.
  assert (∀ k, forks_in_use m1 !! k =
               if decide (k = A ∨ k = left_of A) then Some None
               else forks_in_use m !! k) as Hf1
    by (intros k; by apply forks_put_back).
  assert (∀ j, state m1 !! j =
               if decide (j = A) then Some THINKING else state m !! j) as Hs1
    by (intros j; by apply state_put_back).
  destruct Hadj as [[-> Hfree]|[-> Hfree]].
  - apply test_grants; [by apply wf_test|done|..].
    + rewrite test_state_other by congruence.
      rewrite Hs1, decide_False by done. done.
    + rewrite Hln. unfold is_free.
      rewrite test_forks_other by congruence.
      rewrite Hf1, decide_True by auto. done.
    + unfold is_free. rewrite test_forks_other by congruence.
      rewrite Hf1, decide_False; [done|]. intros [E|E]; congruence.
  - destruct (test_grants (left_of A) m1) as (_ & He & Hl & Hr); [done|done|..].
    + rewrite Hs1, decide_False by done. done.
    + unfold is_free. rewrite Hf1, decide_False; [done|].
      intros [E|E]; congruence.
    + unfold is_free. rewrite Hf1, decide_True by auto. done.
    + split; [by apply test_keeps_eating|].
      split; by apply test_keeps_holder.
Qed.

(** X5. A request of actor [i] on a running monitor while one of its forks is
    not free only marks [i] [HUNGRY] and logs it; read before the deadline it
    suspends with [TIMEOUT] minus the elapsed time as its timeout, read at or
    after the deadline it times out at once. *)
Theorem request_contended (i : nat) (st now : Q) (m : Monitor) :
  wf m → i < NUM_PHILOSOPHERS → running m = true →
  ¬ (is_free m (left_of i) ∧ is_free m i) →
  let m2 := log_event (msg_hungry i) (set_state i HUNGRY m) in
  ((now - st < TIMEOUT)%Q →
     pickup_forks i st now m = (m2, Wait (TIMEOUT - (now - st)))) ∧
  ((TIMEOUT <= now - st)%Q →
     pickup_forks i st now m =
     (log_event (msg_timed_out i) (set_state i DEADLOCK m2), Return false)).
Proof.
  intros Hwf Hi Hrun Hbusy. simpl.
  set (m2 := log_event (msg_hungry i) (set_state i HUNGRY m)).
  assert (state m2 !! i = Some HUNGRY) as Hh by (by apply state_hungry_logged).
  assert (can_eat i m2 = false) as Hc.
  { apply not_true_is_false. intros Hc.
    apply can_eat_true in Hc as (_ & Hl & Hr). by apply Hbusy. }
  assert (¬ is_eating m2 i) as Hne by (unfold is_eating; congruence).
  unfold pickup_forks. rewrite Hrun. simpl. fold m2.
  unfold test. rewrite Hc. split; intros Ht.
  - by apply pickup_wait_loop_early.
  - by apply pickup_wait_loop_timeout.
Qed.

Lemma request_contended_witness :
  pickup_forks 1 1 2 mon_zero_eats =
  (log_event (msg_hungry 1) (set_state 1 HUNGRY mon_zero_eats),
   Wait (TIMEOUT - (2 - 1))).
Proof.
  apply (request_contended 1 1 2 mon_zero_eats).
  - split; reflexivity.
  - unfold NUM_PHILOSOPHERS. lia.
  - reflexivity.
  - intros [H _]. discriminate H.
  - reflexivity.
Defined.

(** X6. A grant is not lost to the clock: when a release has granted the
    forks to a suspended neighbour, the re-check of that neighbour's request
    returns [True] and changes nothing, however late it runs (also after the
    deadline of the request). *)
Theorem granted_waiter_returns_true (A B : nat) (st now : Q) (m : Monitor) :
  wf m → A < NUM_PHILOSOPHERS → running m = true →
  state m !! B = Some HUNGRY →
  (B = next_of A ∧ is_free m B) ∨ (B = left_of A ∧ is_free m (left_of B)) →
  pickup_wait_loop B st now (putdown_forks A m) =
  (putdown_forks A m, Return true).
Proof.
  intros Hwf HA Hrun HB Hadj.
  destruct (putdown_forks_grants A B m Hwf HA HB Hadj) as [He _].
  rewrite pickup_wait_loop_eating by done.
  by rewrite putdown_forks_running, Hrun.
Qed.

Lemma granted_waiter_returns_true_witness :
  pickup_wait_loop 1 0 100 (putdown_forks 0 mon_one_waits) =
  (putdown_forks 0 mon_one_waits, Return true).
Proof.
  apply (granted_waiter_returns_true 0 1 0 100 mon_one_waits).
  - split; reflexivity.
  - unfold NUM_PHILOSOPHERS. lia.
  - reflexivity.
  - reflexivity.
  - left. split; reflexivity.
Defined.

(** ** Request and release together *)

Lemma Monitor_eq m1 m2 :
  state m1 = state m2 → forks_in_use m1 = forks_in_use m2 →
  condition m1 = condition m2 → log m1 = log m2 → running m1 = running m2 →
  m1 = m2.
Proof. destruct m1, m2. simpl. by intros -> -> -> -> ->. Qed.

Lemma pickup_forks_granted i st now m :
  wf m → i < NUM_PHILOSOPHERS → running m = true →
  is_free m (left_of i) → is_free m i →
  pickup_forks i st now m =
  (grant i (log_event (msg_hungry i) (set_state i HUNGRY m)), Return true).
Proof.
  intros Hwf Hi Hrun Hl Hr. unfold pickup_forks. rewrite Hrun. simpl.
  set (m2 := log_event (msg_hungry i) (set_state i HUNGRY m)).
  destruct (test_grants i m2) as (Ht & He & _);
    [by apply wf_set_state|done|by apply state_hungry_logged|done|done|].
  rewrite pickup_wait_loop_eating by done.
  rewrite test_running, Ht. simpl. by rewrite Hrun.
Qed.

Lemma test_not_hungry i m : state m !! i ≠ Some HUNGRY → test i m = m.
Proof.
  intros H. unfold test. destruct (can_eat i m) eqn:Hc; [|done].
  apply can_eat_true in Hc as (? & _ & _). done.
Qed.

(** X7. Round trip.  A thinking actor whose forks are free and whose
    neighbours are not hungry asks and then releases: actor states and forks
    are exactly as before the request; the monitor has one more notification
    and the three log entries "hungry", "eating", "stopped eating". *)
Theorem request_release_round_trip (i : nat) (st now : Q) (m : Monitor) :
  wf m → i < NUM_PHILOSOPHERS → running m = true →
  state m !! i = Some THINKING →
  is_free m (left_of i) → is_free m i →
  state m !! left_of i ≠ Some HUNGRY → state m !! next_of i ≠ Some HUNGRY →
  (pickup_forks i st now m).2 = Return true ∧
  putdown_forks i (pickup_forks i st now m).1 =
  mkMonitor (state m) (forks_in_use m) (S (condition m))
    (deque_append (msg_stopped i)
       (deque_append (msg_eating i (left_of i) i)
          (deque_append (msg_hungry i) (log m))))
    (running m).
Proof.
  intros Hwf Hi Hrun Hth Hl Hr Hnl Hnn.
  rewrite pickup_forks_granted by done. simpl. split; [done|].
  set (m2 := log_event (msg_hungry i) (set_state i HUNGRY m)).
  assert (wf m2) as Hwf2 by (by apply wf_set_state).
  assert (wf (grant i m2)) as Hwf3 by (by apply wf_grant).
  unfold putdown_forks. rewrite prev_of_left_of by done.
  assert (put_back i (grant i m2) =
          mkMonitor (state m) (forks_in_use m) (S (condition m))
            (deque_append (msg_stopped i)
               (deque_append (msg_eating i (left_of i) i)
                  (deque_append (msg_hungry i) (log m))))
            (running m)) as Hpb.
  { apply Monitor_eq; [| |reflexivity..].
    - change (<[i:=THINKING]> (<[i:=EATING]> (<[i:=HUNGRY]> (state m))) = state m).
      rewrite !list_insert_insert_eq. by apply list_insert_id.
    - apply list_eq. intros k.
      change (forks_in_use (put_back i (grant i m2)) !! k = forks_in_use m !! k).
      rewrite forks_put_back by done. unfold is_free in *.
      case_decide as Hk; [|rewrite forks_grant by done; by rewrite decide_False].
      destruct Hk as [-> | ->]; done. }
  rewrite Hpb.
  rewrite (test_not_hungry (left_of i)) by done.
  by rewrite (test_not_hungry (next_of i)).
Qed.

Lemma request_release_round_trip_witness :
  (pickup_forks 2 0 0 Monitor_init).2 = Return true ∧
  putdown_forks 2 (pickup_forks 2 0 0 Monitor_init).1 =
  mkMonitor (state Monitor_init) (forks_in_use Monitor_init)
    (S (condition Monitor_init))
    (deque_append (msg_stopped 2)
       (deque_append (msg_eating 2 (left_of 2) 2)
          (deque_append (msg_hungry 2) (log Monitor_init))))
    (running Monitor_init).
Proof.
  apply (request_release_round_trip 2 0 0 Monitor_init).
  - apply wf_init.
  - unfold NUM_PHILOSOPHERS. lia.
  - reflexivity.
  - reflexivity.
  - reflexivity.
  - reflexivity.
  - discriminate.
  - discriminate.
Defined.

(** ** Shutdown *)





Lemma pickup_wait_loop_running i st now m :
  running (pickup_wait_loop i st now m).1 = running m.
Proof.
  unfold pickup_wait_loop.
  destruct (negb _ && running m); [|done]. by destruct (Qle_bool _ 0).
Qed.

Lemma pickup_forks_running i st now m :
  running (pickup_forks i st now m).1 = running m.
Proof.
  unfold pickup_forks. destruct (running m) eqn:Hrun; [|done]. simpl.
  by rewrite pickup_wait_loop_running, test_running.
Qed.

Lemma philosopher_step_running id st now pc m :
  running (philosopher_step id st now pc m).2 = running m.
Proof.
  destruct pc as [| | |st0| |]; simpl.
  - by destruct (running m) eqn:Hrun.
  - by destruct (negb (running m)).
  - pose proof (pickup_forks_running id st now m) as H.
    by destruct (pickup_forks id st now m) as [m' [[|]|r]].
  - pose proof (pickup_wait_loop_running id st0 now m) as H.
    by destruct (pickup_wait_loop id st0 now m) as [m' [[|]|r]].
  - apply putdown_forks_running.
  - done.
Qed.

(** On a stopped monitor: the next transition of a thread, and the one after
    it. *)
Lemma philosopher_step_stopped id st now pc m :
  running m = false →
  philosopher_step id st now pc m =
  match pc with
  | AtLoopHead | Thinking | Exited => (Exited, m)
  | Requesting | Blocked _ => (AtLoopHead, m)
  | Dining => (AtLoopHead, putdown_forks id m)
  end.
Proof.
  intros Hrun. destruct pc as [| | |st0| |]; simpl; rewrite ?Hrun; try done.
  - unfold pickup_forks. by rewrite Hrun.
  - by rewrite pickup_wait_loop_stopped.
Qed.

Lemma philosopher_steps_stopped id c1 c2 pc m :
  running m = false →
  philosopher_steps id [c1; c2] pc m =
  (Exited, match pc with Dining => putdown_forks id m | _ => m end).
Proof.
  intros Hrun. destruct c1 as [s1 n1], c2 as [s2 n2]. simpl.
  rewrite (philosopher_step_stopped id s1 n1 pc m Hrun).
  destruct pc; simpl; rewrite ?putdown_forks_running, ?Hrun; done.
Qed.



(** X10. [test] does not look at [running]: on a stopped monitor the release
    of an eating actor still grants the forks to a hungry neighbour.  When
    that neighbour's thread has given up (its request returned [False] on the
    stopped monitor) and the releasing thread has left its loop too, the
    neighbour is recorded as eating and holds both forks, with both threads
    out of their loops. *)
Theorem stopped_release_leaves_forks_held
    (A B : nat) (st : Q) (c1 c2 c3 c4 : Q * Q) (m : Monitor) :
  wf m → A < NUM_PHILOSOPHERS → running m = false →
  state m !! B = Some HUNGRY →
  (B = next_of A ∧ is_free m B) ∨ (B = left_of A ∧ is_free m (left_of B)) →
  let rB := philosopher_steps B [c1; c2] (Blocked st) m in
  let rA := philosopher_steps A [c3; c4] Dining rB.2 in
  rB.1 = Exited ∧ rB.2 = m ∧ rA.1 = Exited ∧
  is_eating rA.2 B ∧ holds_both rA.2 B.
Proof.
  intros Hwf HA Hrun HB Hadj. cbv zeta.
  rewrite (philosopher_steps_stopped B c1 c2 (Blocked st) m Hrun).
  cbn [fst snd].
  rewrite (philosopher_steps_stopped A c3 c4 Dining m Hrun).
  cbn [fst snd].
  split; [done|]. split; [done|]. split; [done|].
  by apply putdown_forks_grants.
Qed.

(** [mon_one_waits] after [stop]. *)
Lemma stopped_release_leaves_forks_held_witness :
  is_eating
    (philosopher_steps 0 [(3, 3); (4, 4)]%Q Dining
       (philosopher_steps 1 [(1, 1); (2, 2)]%Q (Blocked 0) (stop mon_one_waits)).2).2
    1.
Proof.
  apply (stopped_release_leaves_forks_held 0 1 0 (1, 1)%Q (2, 2)%Q (3, 3)%Q (4, 4)%Q
           (stop mon_one_waits)).
  - split; reflexivity.
  - unfold NUM_PHILOSOPHERS. lia.
  - reflexivity.
  - reflexivity.
  - left. split; reflexivity.
Defined.

(** ** More on restart *)

Lemma state_restart m :
  length (state m) = NUM_PHILOSOPHERS → state (restart m) = cleared <$> state m.
Proof.
  intros Hs. apply list_eq. intros j. unfold restart.
  rewrite state_foldl_clear_deadlock, list_lookup_fmap.
  change (state (set_running true m)) with (state m).
  case_decide as Hin; [done|].
  rewrite elem_of_seq in Hin.
  rewrite lookup_ge_None_2; [done|]. rewrite Hs. lia.
Qed.

Lemma restart_fields m :
  forks_in_use (restart m) = forks_in_use m ∧
  running (restart m) = true ∧
  log (restart m) = log m ∧
  condition (restart m) = condition m.
Proof.
  unfold restart.
  by destruct (forks_clear_deadlock (seq 0 NUM_PHILOSOPHERS) (set_running true m))
    as (-> & -> & -> & ->).
Qed.

Lemma cleared_idemp s : cleared (cleared s) = cleared s.
Proof. by destruct s. Qed.

(** X11. Restart leaves no actor [DEADLOCK], and a second restart changes
    nothing: [restart (restart m) = restart m]. *)
Theorem restart_idempotent (m : Monitor) :
  wf m →
  (∀ i, state (restart m) !! i ≠ Some DEADLOCK) ∧
  restart (restart m) = restart m.
Proof.
  intros [Hs Hf]. split.
  - intros i. rewrite state_restart, list_lookup_fmap by done.
    by destruct (state m !! i) as [[]|].
  - destruct (restart_fields m) as (Hf1 & Hr1 & Hl1 & Hc1).
    destruct (restart_fields (restart m)) as (Hf2 & Hr2 & Hl2 & Hc2).
    apply Monitor_eq; try congruence.
    rewrite (state_restart (restart m)).
    + rewrite state_restart by done. rewrite <- list_fmap_compose.
      apply list_fmap_ext. intros ? s _. apply cleared_idemp.
    + rewrite state_restart by done. by rewrite length_fmap.
Qed.

Lemma restart_idempotent_witness :
  restart (restart mon_deadlocked) = restart mon_deadlocked.
Proof.
  apply (restart_idempotent mon_deadlocked). split; reflexivity.
Defined.

(** ** How many eat *)

Lemma Inv_no_adjacent_eaters m i :
  Inv m → i < NUM_PHILOSOPHERS → ¬ (is_eating m i ∧ is_eating m (next_of i)).
Proof.
  intros (_ & Heat & _) Hi [He Hn].
  destruct (Heat i Hi He) as [_ Hright].
  destruct (Heat (next_of i) (next_of_lt i) Hn) as [Hleft _].
  rewrite left_of_next_of in Hleft by done.
  unfold holds in *. rewrite Hright in Hleft.
  inversion Hleft as [Heq]. by apply (next_of_neq i Hi).
Qed.

Lemma Inv_count_eating m : Inv m → count_eating m ≤ 2.
Proof.
  intros HI.
  assert (∀ i, i < NUM_PHILOSOPHERS →
               ¬ (state m !! i = Some EATING ∧ state m !! next_of i = Some EATING))
    as Hadj by (intros i Hi; by apply Inv_no_adjacent_eaters).
  destruct HI as ([Hs _] & _ & _). unfold count_eating.
  destruct (state m) as [|a [|b [|c [|d [|e [|]]]]]]; try discriminate Hs.
  pose proof (Hadj 0 ltac:(unfold NUM_PHILOSOPHERS; lia)) as H0.
  pose proof (Hadj 1 ltac:(unfold NUM_PHILOSOPHERS; lia)) as H1.
  pose proof (Hadj 2 ltac:(unfold NUM_PHILOSOPHERS; lia)) as H2.
  pose proof (Hadj 3 ltac:(unfold NUM_PHILOSOPHERS; lia)) as H3.
  pose proof (Hadj 4 ltac:(unfold NUM_PHILOSOPHERS; lia)) as H4.
  clear Hadj Hs. cbn in H0, H1, H2, H3, H4.
  rewrite !filter_cons, filter_nil.
  destruct (decide (a = EATING)), (decide (b = EATING)), (decide (c = EATING)),
           (decide (d = EATING)), (decide (e = EATING));
    subst; simpl; try lia; exfalso; tauto.
Qed.

(** X12. At most two philosophers eat at the same time, in every state
    reachable by requests, re-checks, releases by eating actors, shutdown and
    restart. *)
Theorem at_most_two_eat (s : System) :
  reachable s → count_eating (mon s) ≤ 2.
Proof. intros Hr. by apply Inv_count_eating, Inv_reachable. Qed.

Lemma at_most_two_eat_witness : count_eating (mon sys_two_eat) ≤ 2.
Proof. apply (at_most_two_eat sys_two_eat), reachable_two_eat. Defined.

(** ** The program *)

Lemma threads_spawn_all p :
  threads (spawn_all p) =
  threads p ++ ((λ i, (i, AtLoopHead)) <$> seq 0 NUM_PHILOSOPHERS).
Proof. unfold spawn_all. simpl. by rewrite <- !app_assoc. Qed.

Lemma philosophers_spawn_all p :
  philosophers (spawn_all p) =
  philosophers p ++ seq (length (threads p)) NUM_PHILOSOPHERS.
Proof.
  unfold spawn_all. simpl. rewrite !length_app. simpl.
  rewrite <- !app_assoc. simpl.
  repeat f_equal; lia.
Qed.

Lemma lookup_new_threads j id pc :
  ((λ i, (i, AtLoopHead)) <$> seq 0 NUM_PHILOSOPHERS) !! j = Some (id, pc) →
  id = j ∧ pc = AtLoopHead ∧ j < NUM_PHILOSOPHERS.
Proof.
  rewrite list_lookup_fmap. intros H.
  destruct (seq 0 NUM_PHILOSOPHERS !! j) as [i|] eqn:Hj; [|done].
  apply lookup_seq in Hj as [-> Hlt]. simpl in H.
  inversion H; subst. done.
Qed.

Lemma forallb_lookup {A} (f : A → bool) (l : list A) :
  forallb f l = true ↔ ∀ j x, l !! j = Some x → f x = true.
Proof.
  induction l as [|a l IH]; simpl.
  - split; [intros _ j x H; done|done].
  - rewrite andb_true_iff, IH. split.
    + intros [Ha Hl] [|j] x H; simpl in H; [by inversion H; subst|by eapply Hl].
    + intros H. split; [by apply (H 0)|]. intros j x Hj. by apply (H (S j)).
Qed.

Lemma all_exited_lookup p :
  all_exited p = true ↔ ∀ k id pc, threads p !! k = Some (id, pc) → pc = Exited.
Proof.
  unfold all_exited. rewrite forallb_lookup. split.
  - intros H k id pc Hk. specialize (H k (id, pc) Hk). by destruct pc.
  - intros H k [id pc] Hk. by rewrite (H k id pc Hk).
Qed.

Lemma pickup_wait_loop_true i st now m m' :
  pickup_wait_loop i st now m = (m', Return true) → is_eating m' i.
Proof.
  unfold pickup_wait_loop.
  destruct (bool_decide (state m !! i = Some EATING)) eqn:He; simpl.
  - intros [= <- _]. by apply bool_decide_eq_true in He.
  - destruct (running m); simpl; [|done]. by destruct (Qle_bool _ 0).
Qed.

Lemma pickup_forks_true i st now m m' :
  pickup_forks i st now m = (m', Return true) → is_eating m' i.
Proof.
  unfold pickup_forks. destruct (running m); simpl; [|done].
  apply pickup_wait_loop_true.
Qed.

Lemma putdown_forks_keeps_eating i m j :
  j ≠ i → is_eating m j → is_eating (putdown_forks i m) j.
Proof.
  intros Hj He. unfold putdown_forks. do 2 apply test_keeps_eating.
  unfold is_eating. simpl. by rewrite list_lookup_insert_ne.
Qed.

(** What one transition of a thread keeps. *)
Lemma philosopher_step_keeps id st now pc m :
  Inv m → id < NUM_PHILOSOPHERS → (pc = Dining → is_eating m id) →
  let r := philosopher_step id st now pc m in
  Inv r.2 ∧
  (r.1 = Dining → is_eating r.2 id) ∧
  (∀ j, j ≠ id → is_eating m j → is_eating r.2 j) ∧
  (pc = Exited → r.1 = Exited).
Proof.
  intros HI Hid Hd. simpl. destruct pc as [| | |st0| |]; simpl.
  - destruct (running m); simpl; [|done].
    split; [by apply (Inv_frame m)|done].
  - by destruct (negb (running m)).
  - pose proof (Inv_pickup_forks id st now m Hid HI) as HI'.
    destruct (pickup_forks_frame id st now m) as [Hfr _].
    pose proof (pickup_forks_true id st now m) as Ht.
    destruct (pickup_forks id st now m) as [m' [[|]|r]]; simpl in *;
      (split; [done|]); (split; [by auto|]);
      (split; [|done]); intros j Hj He; unfold is_eating; by rewrite Hfr.
  - pose proof (Inv_pickup_wait_loop id st0 now m HI) as HI'.
    destruct (pickup_wait_loop_frame id st0 now m) as [Hfr _].
    pose proof (pickup_wait_loop_true id st0 now m) as Ht.
    destruct (pickup_wait_loop id st0 now m) as [m' [[|]|r]]; simpl in *;
      (split; [done|]); (split; [by auto|]);
      (split; [|done]); intros j Hj He; unfold is_eating; by rewrite Hfr.
  - split; [apply Inv_putdown_forks; auto|]. split; [done|].
    split; [|done]. intros j Hj He. by apply putdown_forks_keeps_eating.
  - done.
Qed.

Lemma PInv_main_init : PInv main_init.
Proof.
  unfold main_init, PInv. rewrite threads_spawn_all, monitor_spawn_all. simpl threads.
  rewrite app_nil_l.
  split; [apply Inv_init|]. split; [|split].
  - intros k id pc H. apply lookup_new_threads in H as (-> & _ & ?). done.
  - intros k id H. by apply lookup_new_threads in H as (_ & ? & _).
  - intros k k' id pc pc' H H' _ _.
    apply lookup_new_threads in H as (-> & _ & _).
    by apply lookup_new_threads in H' as (-> & _ & _).
Qed.

Lemma PInv_tick k st now p : PInv p → PInv (program_step (Tick k st now) p).
Proof.
  intros (HI & Hids & Hdin & Huniq). simpl.
  destruct (threads p !! k) as [[id pc]|] eqn:Hk; [|done].
  pose proof (Hids k id pc Hk) as Hid.
  destruct (philosopher_step_keeps id st now pc (monitor p) HI Hid)
    as (HI' & Hd' & Hkeep & Hex).
  { intros ->. by apply (Hdin k). }
  destruct (philosopher_step id st now pc (monitor p)) as [pc' m'] eqn:Hstep.
  simpl in *.
  assert (∀ j id0 pc0, <[k:=(id, pc')]> (threads p) !! j = Some (id0, pc0) →
            (j = k ∧ id0 = id ∧ pc0 = pc') ∨
            (j ≠ k ∧ threads p !! j = Some (id0, pc0))) as Hlook.
  { intros j id0 pc0 H.
    apply list_lookup_insert_Some in H as [(-> & [= <- <-] & _)|[? H]]; auto. }
  split; [done|]. split; [|split].
  - intros j id0 pc0 H.
    destruct (Hlook _ _ _ H) as [(_ & -> & _)|[_ H0]]; [done|by eapply Hids].
  - intros j id0 H.
    destruct (Hlook _ _ _ H) as [(_ & -> & Hpc)|[Hj H0]]; [by apply Hd'|].
    assert (pc = Exited ∨ pc ≠ Exited) as [->|Hlive]
      by (destruct pc; auto; right; discriminate).
    + assert (m' = monitor p) as -> by (simpl in Hstep; congruence).
      by apply (Hdin j).
    + apply Hkeep; [|by apply (Hdin j)].
      intros ->. apply Hj. by apply (Huniq j k id Dining pc).
  - intros j j' id0 pc0 pc0' H H' Hl Hl'.
    assert (∀ j1 pc1, <[k:=(id, pc')]> (threads p) !! j1 = Some (id0, pc1) →
              pc1 ≠ Exited →
              ∃ pc2, threads p !! j1 = Some (id0, pc2) ∧ pc2 ≠ Exited) as Hback.
    { intros j1 pc1 H1 Hl1.
      destruct (Hlook _ _ _ H1) as [(-> & -> & ->)|[_ H0]]; [|by eauto].
      exists pc. split; [done|]. intros Hpc. by apply Hl1, Hex. }
    destruct (Hback _ _ H Hl) as (pc2 & H2 & Hl2).
    destruct (Hback _ _ H' Hl') as (pc2' & H2' & Hl2').
    by apply (Huniq j j' id0 pc2 pc2').
Qed.

Lemma PInv_click p : quiet Click p = true → PInv p → PInv (click p).
Proof.
  intros Hq (HI & Hids & Hdin & Huniq). unfold click. simpl in Hq.
  destruct (running (monitor p)) eqn:Hrun.
  - split; [by apply Inv_stop|]. split; [done|]. split; [|done].
    intros k id Hk. by apply (Hdin k).
  - simpl in Hq. rewrite all_exited_lookup in Hq.
    unfold PInv. rewrite threads_spawn_all, monitor_spawn_all. simpl.
    assert (∀ k id pc,
              (threads p ++ ((λ i, (i, AtLoopHead)) <$> seq 0 NUM_PHILOSOPHERS))
                !! k = Some (id, pc) →
              (threads p !! k = Some (id, pc) ∧ pc = Exited) ∨
              (length (threads p) ≤ k ∧ id = k - length (threads p) ∧
               pc = AtLoopHead ∧ id < NUM_PHILOSOPHERS)) as Hlook.
    { intros k id pc H. apply lookup_app_Some in H as [H|[Hge H]].
      - left. split; [done|]. by apply (Hq k id).
      - right. apply lookup_new_threads in H as (-> & -> & ?). done. }
    split; [by apply Inv_restart|]. split; [|split].
    + intros k id pc H.
      destruct (Hlook _ _ _ H) as [[H0 _]|(_ & _ & _ & ?)]; [by eapply Hids|done].
    + intros k id H.
      destruct (Hlook _ _ _ H) as [[_ ?]|(_ & _ & ? & _)]; discriminate.
    + intros k k' id pc pc' H H' Hl Hl'.
      destruct (Hlook _ _ _ H) as [[_ ?]|(Hge & Hid & _ & _)]; [done|].
      destruct (Hlook _ _ _ H') as [[_ ?]|(Hge' & Hid' & _ & _)]; [done|].
      lia.
Qed.

Lemma PInv_run_quiet evs p p' : run_quiet evs p = Some p' → PInv p → PInv p'.
Proof.
  revert p. induction evs as [|ev evs IH]; intros p Hr H; simpl in Hr.
  - by inversion Hr; subst.
  - destruct (quiet ev p) eqn:Hq; [|done].
    apply (IH _ Hr). destruct ev as [k st now|].
    + by apply PInv_tick.
    + by apply PInv_click.
Qed.

(** X13. Mutual exclusion for the program.  Start [main], let the threads
    run in any interleaving and let the button be clicked at any time, as
    long as a click that restarts comes when every thread has left its loop:
    then no two neighbours eat, at most two philosophers eat, and a thread
    between its grant and its release has an eating actor that holds both
    forks. *)
Theorem program_mutual_exclusion (evs : list Event) (p : Program) :
  run_quiet evs main_init = Some p →
  (∀ i, i < NUM_PHILOSOPHERS →
        ¬ (is_eating (monitor p) i ∧ is_eating (monitor p) (next_of i))) ∧
  count_eating (monitor p) ≤ 2 ∧
  (∀ k id, threads p !! k = Some (id, Dining) →
           is_eating (monitor p) id ∧ holds_both (monitor p) id).
Proof.
  intros Hr.
  destruct (PInv_run_quiet evs main_init p Hr PInv_main_init)
    as (HI & Hids & Hdin & _).
  split; [intros i Hi; by apply Inv_no_adjacent_eaters|].
  split; [by apply Inv_count_eating|].
  intros k id Hk. pose proof (Hdin k id Hk) as He. split; [done|].
  destruct HI as (_ & Heat & _). apply Heat; [by eapply Hids|done].
Qed.

Lemma program_mutual_exclusion_witness :
  count_eating
    (monitor (run_program [Tick 1 0 0; Tick 1 0 0; Tick 1 0 0; Click] main_init)) ≤ 2.
Proof.
  apply (program_mutual_exclusion [Tick 1 0 0; Tick 1 0 0; Tick 1 0 0; Click]).
  vm_compute. reflexivity.
Defined.

(** X14. Without that condition mutual exclusion is lost: stop and start
    while a thread sleeps gives its actor a second thread, and the run
    [evs_double_start] of the program ends with actors 0 and 1 both
    eating. *)
Theorem program_double_start_breaks_exclusion :
  is_eating (monitor (run_program evs_double_start main_init)) 0 ∧
  is_eating (monitor (run_program evs_double_start main_init)) (next_of 0) ∧
  run_quiet evs_double_start main_init = None ∧
  ¬ (∀ evs i, i < NUM_PHILOSOPHERS →
       ¬ (is_eating (monitor (run_program evs main_init)) i ∧
          is_eating (monitor (run_program evs main_init)) (next_of i))).
Proof.
  assert (is_eating (monitor (run_program evs_double_start main_init)) 0) as H0
    by (vm_compute; reflexivity).
  assert (is_eating (monitor (run_program evs_double_start main_init)) (next_of 0))
    as H1 by (vm_compute; reflexivity).
  split; [exact H0|]. split; [exact H1|]. split; [vm_compute; reflexivity|].
  intros H.
  apply (H evs_double_start 0); [unfold NUM_PHILOSOPHERS; lia|].
  split; [exact H0|exact H1].
Qed.

(** X15. A click flips [running] and the label of the button.  A click that
    stops starts no thread and touches neither actor states nor forks.  A
    click that starts keeps every thread there is and adds one new thread per
    philosopher, at its loop head, whether or not the old threads have left
    their loops; [main] keeps the handles of the new threads only. *)
Theorem click_toggles (p : Program) :
  running (monitor (click p)) = negb (running (monitor p)) ∧
  btn_text (monitor (click p)) ≠ btn_text (monitor p) ∧
  (running (monitor p) = true →
     threads (click p) = threads p ∧
     state (monitor (click p)) = state (monitor p) ∧
     forks_in_use (monitor (click p)) = forks_in_use (monitor p)) ∧
  (running (monitor p) = false →
     threads (click p) =
       threads p ++ ((λ i, (i, AtLoopHead)) <$> seq 0 NUM_PHILOSOPHERS) ∧
     philosophers (click p) = seq (length (threads p)) NUM_PHILOSOPHERS ∧
     forks_in_use (monitor (click p)) = forks_in_use (monitor p)).
Proof.
  assert (running (monitor (click p)) = negb (running (monitor p))) as Hflip.
  { unfold click. destruct (running (monitor p)) eqn:Hrun; [done|].
    rewrite monitor_spawn_all. cbn [monitor negb].
    by destruct (restart_fields (monitor p)) as (_ & -> & _). }
  split; [done|]. split; [|split].
  - unfold btn_text. rewrite Hflip. by destruct (running (monitor p)).
  - intros Hrun. unfold click. by rewrite Hrun.
  - intros Hrun. unfold click. rewrite Hrun.
    rewrite threads_spawn_all, philosophers_spawn_all, monitor_spawn_all.
    cbn [monitor threads philosophers app].
    by destruct (restart_fields (monitor p)) as (-> & _).
Qed.

Lemma click_toggles_witness :
  philosophers (click (click main_init)) = seq 5 NUM_PHILOSOPHERS.
Proof.
  apply (click_toggles (click main_init)). reflexivity.
Defined.

(** ** Quitting *)

Lemma two_ticks_stopped k st now p :
  running (monitor p) = false →
  let p' := tick_twice st now p k in
  running (monitor p') = false ∧
  length (threads p') = length (threads p) ∧
  philosophers p' = philosophers p ∧
  (∀ j, j ≠ k → threads p' !! j = threads p !! j) ∧
  (∀ id pc, threads p !! k = Some (id, pc) → threads p' !! k = Some (id, Exited)).
Proof.
  intros Hrun. unfold tick_twice. simpl.
  destruct (threads p !! k) as [[id pc]|] eqn:Hk.
  - pose proof (lookup_lt_Some _ _ _ Hk) as Hlt.
    rewrite (philosopher_step_stopped id st now pc (monitor p) Hrun).
    set (pc1 := match pc with
                | Requesting | Blocked _ | Dining => AtLoopHead
                | _ => Exited end).
    set (m1 := match pc with Dining => putdown_forks id (monitor p) | _ => monitor p end).
    assert (running m1 = false) as Hrun1
      by (unfold m1; destruct pc; rewrite ?putdown_forks_running; done).
    replace (match pc with
             | AtLoopHead | Thinking | Exited => (Exited, monitor p)
             | Requesting | Blocked _ => (AtLoopHead, monitor p)
             | Dining => (AtLoopHead, putdown_forks id (monitor p))
             end) with (pc1, m1) by (by destruct pc).
    simpl. rewrite list_lookup_insert_eq by done.
    rewrite (philosopher_step_stopped id st now pc1 m1 Hrun1).
    replace (match pc1 with
             | AtLoopHead | Thinking | Exited => (Exited, m1)
             | Requesting | Blocked _ => (AtLoopHead, m1)
             | Dining => (AtLoopHead, putdown_forks id m1)
             end) with (Exited, m1) by (unfold pc1; by destruct pc).
    simpl. rewrite list_insert_insert_eq.
    split; [done|]. split; [by rewrite length_insert|]. split; [done|].
    split.
    + intros j Hj. by rewrite list_lookup_insert_ne.
    + intros id0 pc0 [= <- <-]. by rewrite list_lookup_insert_eq.
  - rewrite Hk. done.
Qed.

Lemma settle_fold st now l p :
  running (monitor p) = false →
  let p' := foldl (tick_twice st now) p l in
  running (monitor p') = false ∧
  length (threads p') = length (threads p) ∧
  philosophers p' = philosophers p ∧
  (∀ j id pc, threads p !! j = Some (id, pc) →
     ∃ pc', threads p' !! j = Some (id, pc') ∧
            (j ∈ l ∨ pc = Exited → pc' = Exited)).
Proof.
  revert p. induction l as [|k l IH]; intros p Hrun; cbn [foldl]; cbv zeta.
  - split; [done|]. split; [done|]. split; [done|].
    intros j id pc Hj. exists pc. split; [done|].
    intros [H|H]; [by apply elem_of_nil in H|done].
  - destruct (two_ticks_stopped k st now p Hrun) as (Hr1 & Hl1 & Hp1 & Ho1 & Hk1).
    set (p1 := tick_twice st now p k) in *.
    destruct (IH p1 Hr1) as (Hr2 & Hl2 & Hp2 & Hall).
    split; [done|]. split; [congruence|]. split; [congruence|].
    intros j id pc Hj.
    destruct (decide (j = k)) as [->|Hne].
    + destruct (Hall k id Exited (Hk1 id pc Hj)) as (pc' & Hpc' & Hex).
      exists pc'. split; [done|]. intros _. apply Hex. by right.
    + assert (threads p1 !! j = Some (id, pc)) as Hj1 by (by rewrite Ho1).
      destruct (Hall j id pc Hj1) as (pc' & Hpc' & Hex).
      exists pc'. split; [done|]. intros [Hin|Hpc]; apply Hex; [|by right].
      left. apply elem_of_cons in Hin as [?|?]; done.
Qed.

(** X16. Quitting ends the program: after the [stop] of the interrupt
    handler, two transitions of every thread bring every thread ever started
    out of its loop, of whichever generation, so the [join]s on the handles
    that [main] holds return. *)
Theorem quit_terminates (st now : Q) (p : Program) :
  (∀ k, k ∈ philosophers p → k < length (threads p)) →
  all_exited (settle st now (quit p)) = true ∧
  joined (settle st now (quit p)).
Proof.
  intros Hh. unfold settle.
  destruct (settle_fold st now (seq 0 (length (threads (quit p)))) (quit p))
    as (_ & Hlen & Hph & Hall); [done|].
  set (p' := foldl _ (quit p) _) in *.
  assert (∀ j id pc, threads (quit p) !! j = Some (id, pc) →
                     threads p' !! j = Some (id, Exited)) as Hex.
  { intros j id pc Hj. destruct (Hall j id pc Hj) as (pc' & Hpc' & H).
    rewrite Hpc', H; [done|]. left. apply elem_of_seq.
    apply lookup_lt_Some in Hj. lia. }
  split.
  - apply all_exited_lookup. intros k id pc Hk.
    assert (k < length (threads (quit p))) as Hlt
      by (rewrite <- Hlen; by apply lookup_lt_Some in Hk).
    apply lookup_lt_is_Some_2 in Hlt as [[id0 pc0] H0].
    rewrite (Hex _ _ _ H0) in Hk. by inversion Hk.
  - intros k Hk. rewrite Hph in Hk. simpl in Hk.
    apply Hh, lookup_lt_is_Some_2 in Hk as [[id0 pc0] H0].
    exists id0. by apply (Hex k id0 pc0).
Qed.

Lemma quit_terminates_witness :
  all_exited (settle 0 0 (quit main_init)) = true ∧
  joined (settle 0 0 (quit main_init)).
Proof.
  apply (quit_terminates 0 0 main_init).
  intros k Hk. simpl in Hk.
  repeat (apply elem_of_cons in Hk as [->|Hk]; [simpl; lia|]).
  by apply elem_of_nil in Hk.
Defined.

(** ** The display *)

Lemma last_20_bounded l : length l ≤ LOG_MAXLEN → last_20 l = l.
Proof.
  intros H. unfold last_20.
  replace (_ - _) with 0 by (unfold LOG_MAXLEN in H; lia). done.
Qed.

(** X17. The log panel shows the whole log: in every state of the program
    the slice [[-20:]] cuts nothing off, the lines are the log entries in
    their order, one every 20 pixels from [y = 20] at [x = 890], so the last
    one is at [y <= 400], inside the panel. *)
Theorem log_panel_shows_whole_log (evs : list Event) :
  let m := monitor (run_program evs main_init) in
  (draw_log m).*1 = log m ∧
  ∀ k msg x y, draw_log m !! k = Some (msg, (x, y)) →
    log m !! k = Some msg ∧ x = 890 ∧ y = 20 + 20 * k ∧ y ≤ 400 ∧
    y < 10 + (HEIGHT - 120).
Proof.
  simpl. set (m := monitor (run_program evs main_init)).
  assert (log_bounded m) as Hb.
  { apply log_bounded_run_program. unfold log_bounded. simpl. lia. }
  unfold draw_log. rewrite last_20_bounded by done. split.
  - apply list_eq. intros k. rewrite list_lookup_fmap, list_lookup_imap.
    by destruct (log m !! k).
  - intros k msg x y H. rewrite list_lookup_imap in H.
    destruct (log m !! k) as [msg'|] eqn:Hk; [|done].
    simpl in H. inversion H; subst.
    apply lookup_lt_Some in Hk.
    unfold log_bounded, LOG_MAXLEN in Hb. unfold HEIGHT.
    repeat split; try done; lia.
Qed.

Lemma log_panel_shows_whole_log_witness :
  log (monitor (run_program [Tick 0 0 0] main_init)) !! 0 = Some "P0 thinking" ∧
  890 = 890 ∧ 20 = 20 + 20 * 0 ∧ 20 ≤ 400 ∧ 20 < 10 + (HEIGHT - 120).
Proof.
  apply (log_panel_shows_whole_log [Tick 0 0 0]). reflexivity.
Defined.



(** ** Indices stay in range *)

Lemma wf_frame m m' :
  state m' = state m → forks_in_use m' = forks_in_use m → wf m → wf m'.
Proof. unfold wf. by intros -> ->. Qed.

Lemma wf_pickup_wait_loop i st now m : wf m → wf (pickup_wait_loop i st now m).1.
Proof.
  intros H. unfold pickup_wait_loop.
  destruct (negb _ && running m); [|done].
  destruct (Qle_bool _ 0); [|done]. by apply wf_set_state.
Qed.

Lemma wf_pickup_forks i st now m : wf m → wf (pickup_forks i st now m).1.
Proof.
  intros H. unfold pickup_forks. destruct (running m); [|done]. simpl.
  by apply wf_pickup_wait_loop, wf_test, wf_set_state.
Qed.

Lemma wf_putdown_forks i m : wf m → wf (putdown_forks i m).
Proof. intros H. unfold putdown_forks. by do 2 apply wf_test; apply wf_put_back. Qed.

Lemma wf_clear_deadlock l m : wf m → wf (foldl clear_deadlock m l).
Proof.
  revert m. induction l as [|i l IH]; intros m H; [done|]. simpl.
  apply IH. unfold clear_deadlock.
  destruct (bool_decide _); [by apply wf_set_state|done].
Qed.

Lemma wf_philosopher_step id st now pc m :
  wf m → wf (philosopher_step id st now pc m).2.
Proof.
  intros H. destruct pc as [| | |st0| |]; simpl.
  - by destruct (running m).
  - by destruct (negb (running m)).
  - pose proof (wf_pickup_forks id st now m H) as H'.
    by destruct (pickup_forks id st now m) as [m' [[|]|r]].
  - pose proof (wf_pickup_wait_loop id st0 now m H) as H'.
    by destruct (pickup_wait_loop id st0 now m) as [m' [[|]|r]].
  - by apply wf_putdown_forks.
  - done.
Qed.

Lemma in_range_program_step ev p :
  wf (monitor p) ∧ (∀ k id pc, threads p !! k = Some (id, pc) → id < NUM_PHILOSOPHERS) →
  wf (monitor (program_step ev p)) ∧
  (∀ k id pc, threads (program_step ev p) !! k = Some (id, pc) →
              id < NUM_PHILOSOPHERS).
Proof.
  intros [Hwf Hids]. destruct ev as [k st now|]; simpl.
  - destruct (threads p !! k) as [[id pc]|] eqn:Hk; [|done].
    pose proof (wf_philosopher_step id st now pc (monitor p) Hwf) as Hwf'.
    destruct (philosopher_step id st now pc (monitor p)) as [pc' m']. simpl in *.
    split; [done|]. intros j id0 pc0 H.
    apply list_lookup_insert_Some in H as [(-> & [= <- <-] & _)|[_ H]];
      by eapply Hids.
  - unfold click. destruct (running (monitor p)); [done|].
    rewrite threads_spawn_all, monitor_spawn_all. simpl. split.
    + by apply wf_clear_deadlock.
    + intros j id pc H. apply lookup_app_Some in H as [H|[_ H]]; [by eapply Hids|].
      by apply lookup_new_threads in H as (-> & _ & ?).
Qed.

(** X19. No index of the program is ever out of range: in every run of the
    program, with any clicks, the two lists of the monitor keep their five
    entries and every thread works for a philosopher [0..4]; the forks that
    [test] and [putdown_forks] address, [(i + 4) mod 5], [(i - 1 + 5) mod 5]
    and [(i + 1) mod 5], are in [0..4] too. *)
Theorem indices_stay_in_range (evs : list Event) :
  let p := run_program evs main_init in
  wf (monitor p) ∧
  (∀ k id pc, threads p !! k = Some (id, pc) →
     id < NUM_PHILOSOPHERS ∧ left_of id < NUM_PHILOSOPHERS ∧
     prev_of id < NUM_PHILOSOPHERS ∧ next_of id < NUM_PHILOSOPHERS).
Proof.
  simpl.
  assert (∀ p, wf (monitor p) ∧
               (∀ k id pc, threads p !! k = Some (id, pc) → id < NUM_PHILOSOPHERS) →
               wf (monitor (run_program evs p)) ∧
               (∀ k id pc, threads (run_program evs p) !! k = Some (id, pc) →
                           id < NUM_PHILOSOPHERS)) as Hrun.
  { induction evs as [|ev evs IH]; intros p H; [done|].
    apply IH. by apply in_range_program_step. }
  destruct (Hrun main_init) as [Hwf Hids].
  { destruct PInv_main_init as ((Hwf & _) & Hids & _). done. }
  split; [done|]. intros k id pc Hk.
  pose proof (Hids k id pc Hk) as Hid.
  split; [done|]. split; [by apply left_of_lt|].
  split; [rewrite prev_of_left_of by done; by apply left_of_lt|apply next_of_lt].
Qed.

Lemma indices_stay_in_range_witness :
  4 < NUM_PHILOSOPHERS ∧ left_of 4 < NUM_PHILOSOPHERS ∧
  prev_of 4 < NUM_PHILOSOPHERS ∧ next_of 4 < NUM_PHILOSOPHERS.
Proof.
  destruct (indices_stay_in_range [Click; Click]) as [_ H].
  apply (H 9 4 AtLoopHead). vm_compute. reflexivity.
Defined.
